(** * TextReaper: segmentation, page reconciliation and output aggregation

    A shallow embedding of the text pipeline of the repository:
    - [epub_parse.split_content]   (paragraph-aware chunking),
    - [pdf_parse.parse_pdf]        (text collection and cross-page repair),
    - [extract_literary.OutputManager] and the per-document body of
      [extract_literary.process_pages] (range resolution, append and batch
      output).

    Python values are modelled as follows.  A [str] is the list of its
    Unicode code points, so that [len], indexing and comparison agree with
    Python's.  An [int] is a [Z].  The files of the output directory are a
    finite map from path to content.  Exceptions are explicit. *)

From Stdlib Require Import ZArith NArith Lia Ascii String DecimalN DecimalPos Sorted.
From stdpp Require Import base list sorting gmap.

(** ** Python primitives *)

Module Py.

(** A Unicode code point. *)
Abbreviation char := N (only parsing).

(** A Python [str]: a sequence of code points. *)
Abbreviation str := (list N) (only parsing).

(** Decoding of a UTF-8 literal of this file into a [str]; it is only used to
    write the string constants of the source legibly. *)
Fixpoint utf8_go (bs : list N) (acc : N) (k : nat) : str :=
  match bs with
  | [] => []
  | b :: bs' =>
      if (b <? 128)%N then b :: utf8_go bs' 0%N 0%nat
      else if (b <? 192)%N then
        let acc' := (acc * 64 + (b - 128))%N in
        match k with
        | 0%nat => utf8_go bs' 0%N 0%nat
        | 1%nat => acc' :: utf8_go bs' 0%N 0%nat
        | S k' => utf8_go bs' acc' k'
        end
      else if (b <? 224)%N then utf8_go bs' (b - 192)%N 1%nat
      else if (b <? 240)%N then utf8_go bs' (b - 224)%N 2%nat
      else utf8_go bs' (b - 240)%N 3%nat
  end.

Definition py (s : string) : str :=
  utf8_go (map N_of_ascii (list_ascii_of_string s)) 0%N 0%nat.

(** ['\n'] *)
Definition NL : char := 10%N.

(** [len(s)] *)
Definition len (s : str) : Z := Z.of_nat (length s).

(** Truth value of a string or of a list: non-empty. *)
Definition truthy {A} (l : list A) : bool :=
  match l with [] => false | _ :: _ => true end.

(** [s.split('\n')]: never the empty list. *)
Fixpoint split_nl (s : str) : list str :=
  match s with
  | [] => [[]]
  | c :: s' =>
      if (c =? NL)%N then [] :: split_nl s'
      else match split_nl s' with
           | [] => [[c]]
           | p :: ps => (c :: p) :: ps
           end
  end.

(** ['\n'.join(l)] *)
Fixpoint join_nl (l : list str) : str :=
  match l with
  | [] => []
  | [p] => p
  | p :: ps => p ++ NL :: join_nl ps
  end.

(** [s.count('\n')] *)
Fixpoint count_char (c : char) (s : str) : nat :=
  match s with
  | [] => 0
  | x :: s' => (if (x =? c)%N then 1 else 0) + count_char c s'
  end.

Definition count_nl (s : str) : Z := Z.of_nat (count_char NL s).

(** [c in cs] for a one-character string [c]. *)
Definition char_in (c : char) (cs : str) : bool :=
  existsb (N.eqb c) cs.

(** [s[-1]], for a non-empty [s]. *)
Definition last_char (s : str) : char := List.last s 0%N.

(** [l[-1]] and [l[0]] of a list of strings; the source guards both with
    [if l else ""]. *)
Definition last_item (l : list str) : str := List.last l [].
Definition first_item (l : list str) : str := List.hd [] l.

(** [c.isspace()]: the code points Python treats as white space. *)
Definition isspace (c : char) : bool :=
  ((9 <=? c) && (c <=? 13) || (28 <=? c) && (c <=? 32) || (c =? 133)
   || (c =? 160) || (c =? 5760) || (8192 <=? c) && (c <=? 8202)
   || (c =? 8232) || (c =? 8233) || (c =? 8239) || (c =? 8287)
   || (c =? 12288))%N.

Fixpoint lstrip (s : str) : str :=
  match s with
  | [] => []
  | c :: s' => if isspace c then lstrip s' else s
  end.

(** [s.strip()] *)
Definition strip (s : str) : str := rev (lstrip (rev (lstrip s))).

(** Decimal digits of [Decimal.uint] as code points. *)
Fixpoint digits (d : Decimal.uint) : str :=
  match d with
  | Decimal.Nil => []
  | Decimal.D0 d => 48%N :: digits d
  | Decimal.D1 d => 49%N :: digits d
  | Decimal.D2 d => 50%N :: digits d
  | Decimal.D3 d => 51%N :: digits d
  | Decimal.D4 d => 52%N :: digits d
  | Decimal.D5 d => 53%N :: digits d
  | Decimal.D6 d => 54%N :: digits d
  | Decimal.D7 d => 55%N :: digits d
  | Decimal.D8 d => 56%N :: digits d
  | Decimal.D9 d => 57%N :: digits d
  end.

(** [str(n)] for an int. *)
Definition str_of_int (n : Z) : str :=
  match n with
  | Z0 => [48%N]
  | Zpos p => digits (Pos.to_uint p)
  | Zneg p => 45%N :: digits (Pos.to_uint p)
  end.

(** [s.zfill(width)]: zeros go after a leading sign. *)
Definition zfill (s : str) (width : Z) : str :=
  let pad := replicate (Z.to_nat (width - len s)) 48%N in
  match s with
  | c :: s' => if ((c =? 43) || (c =? 45))%N then c :: pad ++ s' else pad ++ s
  | [] => pad
  end.

(** [f"{n:03d}"] *)
Definition format_03d (n : Z) : str := zfill (str_of_int n) 3.

(** Comparison of strings, by code point: [a <= b]. *)
Fixpoint str_leb (a b : str) : bool :=
  match a, b with
  | [], _ => true
  | _ :: _, [] => false
  | x :: a', y :: b' =>
      if (x <? y)%N then true
      else if (x =? y)%N then str_leb a' b'
      else false
  end.

(** [a == b] *)
Fixpoint str_eqb (a b : str) : bool :=
  match a, b with
  | [], [] => true
  | x :: a', y :: b' => (x =? y)%N && str_eqb a' b'
  | _, _ => false
  end.

(** [sorted(l, key=...)]: a stable ascending sort, [le x y] being
    [key(x) <= key(y)]. *)
Fixpoint insert_sorted {A} (le : A -> A -> bool) (x : A) (l : list A) : list A :=
  match l with
  | [] => [x]
  | y :: l' => if le x y then x :: l else y :: insert_sorted le x l'
  end.

Definition sorted {A} (le : A -> A -> bool) (l : list A) : list A :=
  foldr (insert_sorted le) [] l.

(** [range(a, b)] *)
Definition range (a b : Z) : list Z :=
  map (fun i => (a + Z.of_nat i)%Z) (seq 0 (Z.to_nat (b - a))).

(** [os.path.join(d, f)] on a POSIX system. *)
Definition path_join (d f : str) : str :=
  match f with
  | 47%N :: _ => f
  | _ =>
      match d with
      | [] => f
      | _ => if (last_char d =? 47)%N then d ++ f else d ++ 47%N :: f
      end
  end.

(** [s.split(sep)] for a separator [sep] of one character: never the empty
    list. *)
Fixpoint split_on (sep : char) (s : str) : list str :=
  match s with
  | [] => [[]]
  | c :: s' =>
      if (c =? sep)%N then [] :: split_on sep s'
      else match split_on sep s' with
           | [] => [[c]]
           | p :: ps => (c :: p) :: ps
           end
  end.

(** [s.endswith(suffix)] *)
Definition endswith (s suffix : str) : bool :=
  str_eqb (skipn (length s - length suffix) s) suffix
  && (length suffix <=? length s)%nat.

(** [c] ends a line for [str.splitlines]. *)
Definition is_linebreak (c : char) : bool :=
  ((10 <=? c) && (c <=? 13) || (28 <=? c) && (c <=? 30) || (c =? 133)
   || (c =? 8232) || (c =? 8233))%N.

(** [s.splitlines()]: [line] is the line being read; a carriage return
    followed by a line feed ends one line; no empty line is added at the
    end. *)
Fixpoint splitlines_from (line : str) (s : str) : list str :=
  match s with
  | [] => if truthy line then [line] else []
  | c :: s' =>
      if is_linebreak c then
        line :: match c, s' with
                | 13%N, 10%N :: s'' => splitlines_from [] s''
                | _, _ => splitlines_from [] s'
                end
      else splitlines_from (line ++ [c]) s'
  end.

Definition splitlines (s : str) : list str := splitlines_from [] s.

(** [s.split("  ")]: the occurrences of two spaces are taken from the left
    and do not overlap. *)
Fixpoint split_two_spaces (s : str) : list str :=
  match s with
  | [] => [[]]
  | c :: s' =>
      match c, s' with
      | 32%N, 32%N :: s'' => [] :: split_two_spaces s''
      | _, _ =>
          match split_two_spaces s' with
          | [] => [[c]]
          | p :: ps => (c :: p) :: ps
          end
      end
  end.

(** What a file opened in text mode for reading gives for the stored text
    [s] ([newline=None], universal newlines): a carriage return followed by
    a line feed, and a carriage return alone, are read as one line feed.
    (On a POSIX system nothing is translated when a text is written.) *)
Fixpoint universal_newlines (s : str) : str :=
  match s with
  | [] => []
  | c :: s' =>
      if (c =? 13)%N then
        NL :: match s' with
              | c' :: s'' =>
                  if (c' =? 10)%N then universal_newlines s''
                  else universal_newlines s'
              | [] => universal_newlines s'
              end
      else c :: universal_newlines s'
  end.

End Py.

(** ** epub_parse.py *)

Module EpubParse.
Import Py.

(** The local variables of the loop of [split_content]. *)
Record split_state := SplitState {
  chunks : list str;
  current_chunk : list str;
  current_size : Z
}.

(** One iteration of [for para in paragraphs]. *)
Definition split_step (chunk_size : Z) (st : split_state) (para : str)
  : split_state :=
  let para_size := len para in
  if (current_size st + para_size >? chunk_size)%Z && truthy (current_chunk st)
  then {| chunks := chunks st ++ [join_nl (current_chunk st)];
          current_chunk := [para];
          current_size := para_size |}
  else {| chunks := chunks st;
          current_chunk := current_chunk st ++ [para];
          current_size := (current_size st + para_size)%Z |}.

Definition split_content (text : str) (chunk_size : Z) : list str :=
  let paragraphs := split_nl text in
  let st := fold_left (split_step chunk_size) paragraphs
              {| chunks := []; current_chunk := []; current_size := 0 |} in
  if truthy (current_chunk st)
  then chunks st ++ [join_nl (current_chunk st)]
  else chunks st.

(** [clean_html_content], from [text = soup.get_text()], the text of the
    document without its script and style elements, on: the lines are
    stripped, cut at double spaces, the pieces stripped, and the non-empty
    pieces joined by newlines. *)
Definition clean_html_content (get_text : str) : str :=
  let lines := map strip (splitlines get_text) in
  let chunks := flat_map (fun line => map strip (split_two_spaces line)) lines in
  join_nl (List.filter truthy chunks).

(** An item of the book, as the reader delivers it: whether it is a
    chapter, its name, and the text of its content. *)
Record item := Item {
  is_chapter : bool;
  get_name : str;
  get_text : str
}.

(** The dictionary that is dumped as the JSON file of one chunk. *)
Record chunk_data := ChunkData {
  content : str;
  chunk_index : Z;
  chapter_chunk_index : Z
}.

Record chapter_info := ChapterInfo {
  title : str;
  chapter_chunks : list chunk_data
}.

(** The result of [parse_epub], dumped as [book_info.json]. *)
Record book_info := BookInfo {
  book_name : str;
  chapters : list chapter_info
}.

(** The JSON files of the directory of a book. *)
Inductive json_file :=
  | ChunkFile (c : chunk_data)
  | InfoFile (b : book_info).

(** The path of the file of a chunk: [f'chunk_{chunk_index:04d}.json']. *)
Definition chunk_file (book_dir : str) (chunk_index : Z) : str :=
  path_join book_dir
    (py "chunk_" ++ zfill (str_of_int chunk_index) 4 ++ py ".json").

(** [for i, chunk in enumerate(chunks, 1)]: [saved] is
    [chapter_info['chunks']]. *)
Fixpoint save_chunks (book_dir : str) (chunks : list str) (i : Z)
    (chunk_index : Z) (saved : list chunk_data) (fs : gmap str json_file)
  : Z * list chunk_data * gmap str json_file :=
  match chunks with
  | [] => (chunk_index, saved, fs)
  | chunk :: rest =>
      let chunk_data := {| content := chunk;
                           chunk_index := chunk_index;
                           chapter_chunk_index := i |} in
      save_chunks book_dir rest (i + 1) (chunk_index + 1)
        (saved ++ [chunk_data])
        (<[chunk_file book_dir chunk_index := ChunkFile chunk_data]> fs)
  end.

(** One iteration of the loop over the items of the book. *)
Definition parse_item (book_dir : str)
    (st : Z * list chapter_info * gmap str json_file) (it : item)
  : Z * list chapter_info * gmap str json_file :=
  let '(chunk_index, result_chapters, fs) := st in
  if negb (is_chapter it) then st
  else
    let clean_text := clean_html_content (get_text it) in
    if negb (truthy (strip clean_text)) then st
    else
      let chunks := split_content clean_text 2000 in
      let '(chunk_index, saved, fs) :=
        save_chunks book_dir chunks 1 chunk_index [] fs in
      (chunk_index,
       result_chapters ++ [{| title := get_name it; chapter_chunks := saved |}],
       fs).

(** [parse_epub], from the items of the opened book to its result and the
    JSON files it leaves in the file system [fs]. *)
Definition parse_epub (items : list item) (book_name output_dir : str)
    (fs : gmap str json_file) : book_info * gmap str json_file :=
  let book_dir := path_join output_dir book_name in
  let '(_, result_chapters, fs) :=
    fold_left (parse_item book_dir) items (1%Z, [], fs) in
  let result := {| book_name := book_name; chapters := result_chapters |} in
  (result, <[path_join book_dir (py "book_info.json") := InfoFile result]> fs).

End EpubParse.

(** ** pdf_parse.py *)

Module PdfParse.
Import Py.

(** The sentence-terminal marks ['。！？.!?']. *)
Definition terminal_marks : str := Eval vm_compute in py "。！？.!?".

(** The dictionary that is dumped as the JSON file of one page. *)
Record page_data := PageData {
  page_number : Z;
  content : str;
  source_pdf : str;
  total_pages : Z
}.

(** First pass.  [doc] is the document as the reader delivers it: for each
    page either its text, or [None] when [doc[page_num]] or [get_text()]
    raises.  The result is [all_pages_text]. *)
Definition collect_texts (doc : list (option str)) : list str :=
  map (fun page => match page with
                   | Some text => strip text
                   | None => []
                   end) doc.

(** Second pass, lines 52-61: the previous page's last paragraph.  Indexing
    [all_pages_text] out of range raises ([None]). *)
Definition prepend_step (all_pages_text : list str) (page_num : nat)
    (current_text : str) : option str :=
  if (0 <? page_num)%nat && truthy current_text then
    prev ← all_pages_text !! (page_num - 1)%nat;
    if truthy prev then
      let prev_text := prev in
      if truthy prev_text && negb (char_in (last_char prev_text) terminal_marks)
      then
        let prev_paragraphs := split_nl prev_text in
        let last_paragraph :=
          if truthy prev_paragraphs then last_item prev_paragraphs else [] in
        if truthy last_paragraph
        then Some (last_paragraph ++ current_text)
        else Some current_text
      else Some current_text
    else Some current_text
  else Some current_text.

(** Second pass, lines 64-73: the next page's first paragraph. *)
Definition append_step (all_pages_text : list str) (total_pages page_num : nat)
    (current_text : str) : option str :=
  if (Z.of_nat page_num <? Z.of_nat total_pages - 1)%Z && truthy current_text
  then
    next ← all_pages_text !! (page_num + 1)%nat;
    if truthy next then
      let next_text := next in
      if truthy current_text
         && negb (char_in (last_char current_text) terminal_marks)
      then
        let next_paragraphs := split_nl next_text in
        let first_paragraph :=
          if truthy next_paragraphs then first_item next_paragraphs else [] in
        if truthy first_paragraph
        then Some (current_text ++ first_paragraph)
        else Some current_text
      else Some current_text
    else Some current_text
  else Some current_text.

(** The text computed for one page inside the [try] of the second pass. *)
Definition reconcile_page (all_pages_text : list str) (total_pages page_num : nat)
  : option str :=
  current_text ← all_pages_text !! page_num;
  current_text ← prepend_step all_pages_text page_num current_text;
  append_step all_pages_text total_pages page_num current_text.

(** The path of the JSON file of a page. *)
Definition page_file (pdf_output_dir : str) (page_number_width : Z)
    (page_num : nat) : str :=
  path_join pdf_output_dir
    (py "page_"
     ++ zfill (str_of_int (Z.of_nat (page_num + 1))) page_number_width
     ++ py ".json").

(** One iteration of the second pass.  [raises page_num] tells whether the
    file operations inside the [try] raise for this page; in that case, as
    when the text computation raises, the handler writes the page with an
    empty content.  The handler's own write is taken to succeed. *)
Definition save_page (raises : nat -> bool) (pdf_name pdf_output_dir : str)
    (all_pages_text : list str) (total_pages : nat) (page_number_width : Z)
    (dir : gmap str page_data) (page_num : nat) : gmap str page_data :=
  let output_file := page_file pdf_output_dir page_number_width page_num in
  match (if raises page_num then None
         else reconcile_page all_pages_text total_pages page_num) with
  | Some current_text =>
      <[output_file := {| page_number := Z.of_nat (page_num + 1);
                          content := current_text;
                          source_pdf := pdf_name;
                          total_pages := Z.of_nat total_pages |}]> dir
  | None =>
      <[output_file := {| page_number := Z.of_nat (page_num + 1);
                          content := [];
                          source_pdf := pdf_name;
                          total_pages := Z.of_nat total_pages |}]> dir
  end.

(** The second pass: [for page_num in range(total_pages)]. *)
Definition second_pass (raises : nat -> bool) (pdf_name pdf_output_dir : str)
    (all_pages_text : list str) (total_pages : nat) (page_number_width : Z)
    (dir : gmap str page_data) : gmap str page_data :=
  fold_left
    (save_page raises pdf_name pdf_output_dir all_pages_text total_pages
       page_number_width)
    (seq 0 total_pages) dir.

(** [parse_pdf], from the opened document to the JSON files it leaves in the
    file system [dir]. *)
Definition parse_pdf (doc : list (option str)) (pdf_name output_dir : str)
    (raises : nat -> bool) (dir : gmap str page_data) : gmap str page_data :=
  let pdf_output_dir := path_join output_dir pdf_name in
  let total_pages := length doc in
  let page_number_width := len (str_of_int (Z.of_nat total_pages)) in
  let all_pages_text := collect_texts doc in
  second_pass raises pdf_name pdf_output_dir all_pages_text total_pages
    page_number_width dir.

End PdfParse.

(** ** extract_literary.py *)

Module ExtractLiterary.
Import Py.
Local Open Scope Z_scope.

(** *** Range resolution (process_pages, lines 304-311) *)

Inductive range_result :=
  | RangeOk (actual_start actual_end : Z)
  | InvalidRangeError (actual_start actual_end : Z).

Definition resolve (start_page end_page : option Z) (total_pages : Z)
  : range_result :=
  let actual_start :=
    match start_page with
    | None => 1
    | Some start_page => Z.max 1 (Z.min start_page total_pages)
    end in
  let actual_end :=
    match end_page with
    | None => total_pages
    | Some end_page => Z.min end_page total_pages
    end in
  if (actual_start >? actual_end)%Z
  then InvalidRangeError actual_start actual_end
  else RangeOk actual_start actual_end.

(** *** The output manager and its files *)

Inductive exn := ZeroDivisionError | FileNotFoundError.

Inductive result (A : Type) :=
  | Ok (a : A)
  | Raise (e : exn).
Arguments Ok {A} a.
Arguments Raise {A} e.

(** The fields of an [OutputManager] instance. *)
Record OutputManager := {
  output_dir : str;
  pdf_name : str;
  dump_interval : Z;
  current_batch : list (Z * str);
  batch_count : Z;
  temp_files : list str;
  pdf_output_dir : str
}.

(** The instance together with the files on disk (path to content). *)
Record world := World {
  self : OutputManager;
  files : gmap str str
}.

(** Computations that read and update the world and may raise. *)
Definition M (A : Type) : Type := world -> result A * world.

Definition raise {A} (e : exn) : M A := fun w => (Raise e, w).

#[global] Instance M_ret : MRet M := fun A (a : A) w => (Ok a, w).

#[global] Instance M_bind : MBind M := fun A B (k : A -> M B) (m : M A) w =>
  match m w with
  | (Ok a, w') => k a w'
  | (Raise e, w') => (Raise e, w')
  end.

Definition ret {A} (a : A) : M A := mret a.

Definition get_self : M OutputManager := fun w => (Ok (self w), w).

Definition set_current_batch (b : list (Z * str)) : M unit := fun w =>
  (Ok tt, {| self := {| output_dir := output_dir (self w);
                        pdf_name := pdf_name (self w);
                        dump_interval := dump_interval (self w);
                        current_batch := b;
                        batch_count := batch_count (self w);
                        temp_files := temp_files (self w);
                        pdf_output_dir := pdf_output_dir (self w) |};
             files := files w |}).

Definition set_batch_count (n : Z) : M unit := fun w =>
  (Ok tt, {| self := {| output_dir := output_dir (self w);
                        pdf_name := pdf_name (self w);
                        dump_interval := dump_interval (self w);
                        current_batch := current_batch (self w);
                        batch_count := n;
                        temp_files := temp_files (self w);
                        pdf_output_dir := pdf_output_dir (self w) |};
             files := files w |}).

Definition set_temp_files (l : list str) : M unit := fun w =>
  (Ok tt, {| self := {| output_dir := output_dir (self w);
                        pdf_name := pdf_name (self w);
                        dump_interval := dump_interval (self w);
                        current_batch := current_batch (self w);
                        batch_count := batch_count (self w);
                        temp_files := l;
                        pdf_output_dir := pdf_output_dir (self w) |};
             files := files w |}).

Definition set_files (f : gmap str str) : M unit := fun w =>
  (Ok tt, {| self := self w; files := f |}).

(** [open(path, "w")]: the file is created or truncated. *)
Definition open_w (path : str) : M unit := fun w =>
  set_files (<[path := []]> (files w)) w.

(** [open(path, "a")]: the file is created when it does not exist. *)
Definition open_a (path : str) : M unit := fun w =>
  match files w !! path with
  | Some _ => (Ok tt, w)
  | None => set_files (<[path := []]> (files w)) w
  end.

(** [f.write(s)] on the open file [path]. *)
Definition write (path : str) (s : str) : M unit := fun w =>
  set_files (alter (fun old => old ++ s) path (files w)) w.

(** [open(path, "r", encoding="utf-8").read()]: the file is read in text
    mode, with universal newlines. *)
Definition read (path : str) : M str := fun w =>
  match files w !! path with
  | Some s => (Ok (universal_newlines s), w)
  | None => (Raise FileNotFoundError, w)
  end.

(** [os.remove(path)] *)
Definition remove (path : str) : M unit := fun w =>
  match files w !! path with
  | Some _ => set_files (delete path (files w)) w
  | None => (Raise FileNotFoundError, w)
  end.

(** [for x in l: body(x)] *)
Fixpoint for_each {A} (l : list A) (body : A -> M unit) : M unit :=
  match l with
  | [] => ret tt
  | x :: l' => body x ;; for_each l' body
  end.

(** [OutputManager.__init__]; the directories it creates are not files. *)
Definition new_OutputManager (output_dir pdf_name : str) (dump_interval : Z)
  : OutputManager :=
  {| output_dir := output_dir;
     pdf_name := pdf_name;
     dump_interval := dump_interval;
     current_batch := [];
     batch_count := 0;
     temp_files := [];
     pdf_output_dir := path_join output_dir pdf_name |}.

Definition add_content (page_number : Z) (content : str) : M unit :=
  if truthy content then
    o ← get_self;
    set_current_batch (current_batch o ++ [(page_number, content)])
  else ret tt.

(** [key=lambda x: x[0]] *)
Definition page_le (x y : Z * str) : bool := (x.1 <=? y.1)%Z.

Definition _write_batch (filename : str) (batch : list (Z * str)) : M unit :=
  open_w filename ;;
  for_each (sorted page_le batch) (fun '(page_num, content) =>
    write filename ([NL] ++ py "=== 第" ++ str_of_int page_num ++ py "页 ===" ++ [NL]) ;;
    write filename content ;;
    write filename [NL]).

Definition dump_interval_batch : M unit :=
  o ← get_self;
  if negb (truthy (current_batch o)) then ret tt
  else
    set_batch_count (batch_count o + 1) ;;
    o ← get_self;
    let temp_file :=
      path_join (pdf_output_dir o)
        (py "temp_batch_" ++ format_03d (batch_count o) ++ py ".txt") in
    _write_batch temp_file (current_batch o) ;;
    o ← get_self;
    set_temp_files (temp_files o ++ [temp_file]) ;;
    set_current_batch [].

Definition output_file_name (o : OutputManager) (page_range : str) : str :=
  path_join (pdf_output_dir o) (pdf_name o ++ page_range ++ py "_literary.txt").

Definition merge_and_cleanup (page_range : str) : M unit :=
  o ← get_self;
  if negb (truthy (temp_files o)) && negb (truthy (current_batch o)) then ret tt
  else
    (if truthy (current_batch o) then dump_interval_batch else ret tt) ;;
    o ← get_self;
    let output_file := output_file_name o page_range in
    open_w output_file ;;
    for_each (sorted str_leb (temp_files o)) (fun temp_file =>
      s ← read temp_file;
      write output_file s ;;
      remove temp_file) ;;
    set_temp_files [].

Definition append_to_file (page_number : Z) (content : str) (page_range : str)
  : M unit :=
  if negb (truthy content) then ret tt
  else
    o ← get_self;
    let output_file := output_file_name o page_range in
    open_a output_file ;;
    write output_file ([NL] ++ py "=== 第" ++ str_of_int page_number ++ py "页 ===" ++ [NL]) ;;
    write output_file content ;;
    write output_file [NL].

(** *** The driver (process_pages, lines 322-359) *)

(** [a % b] *)
Definition py_mod (a b : Z) : M Z :=
  if (b =? 0)%Z then raise ZeroDivisionError else ret (a mod b)%Z.

(** The treatment of one extraction result, [literary_sentences] obtained for
    [current_page]; [pages_processed] is threaded through the loop. *)
Definition handle_result (storage_mode : str) (dump_interval : Z)
    (page_range : str) (pages_processed : Z) (current_page : Z)
    (literary_sentences : str) : M Z :=
  if str_eqb storage_mode (py "batch") then
    add_content current_page literary_sentences ;;
    let pages_processed := (pages_processed + 1)%Z in
    r ← py_mod pages_processed dump_interval;
    (if (r =? 0)%Z then dump_interval_batch else ret tt) ;;
    ret pages_processed
  else
    append_to_file current_page literary_sentences page_range ;;
    ret pages_processed.

(** The loop over a sequence of results, each with its page number, in the
    order in which they are handed to the output manager, followed by the
    final merge of batch mode. *)
Fixpoint handle_results (storage_mode : str) (dump_interval : Z)
    (page_range : str) (pages_processed : Z) (results : list (Z * str))
  : M Z :=
  match results with
  | [] => ret pages_processed
  | (current_page, literary_sentences) :: rest =>
      pages_processed ← handle_result storage_mode dump_interval page_range
                          pages_processed current_page literary_sentences;
      handle_results storage_mode dump_interval page_range pages_processed rest
  end.

Definition finish (storage_mode : str) (page_range : str) : M unit :=
  if str_eqb storage_mode (py "batch") then merge_and_cleanup page_range
  else ret tt.

Definition aggregate (storage_mode : str) (dump_interval : Z)
    (page_range : str) (results : list (Z * str)) : M unit :=
  handle_results storage_mode dump_interval page_range 0 results ;;
  finish storage_mode page_range.

(** The results the driver obtains: it walks [range(actual_start,
    actual_end + 1)], skips the pages missing from [page_file_map] and hands
    the content of the others to the extractor. *)
Definition driver_results (page_file_map : gmap Z str) (extract : str -> str)
    (actual_start actual_end : Z) : list (Z * str) :=
  omap (fun current_page =>
          page_content ← page_file_map !! current_page;
          Some (current_page, extract page_content))
       (range actual_start (actual_end + 1)).

(** The body of the loop over documents in [process_pages], for one document
    directory [pdf_dir] with [total_pages] page files. *)
Definition process_document (start_page end_page : option Z)
    (storage_mode : str) (dump_interval : Z) (output_dir pdf_dir : str)
    (total_pages : Z) (page_file_map : gmap Z str) (extract : str -> str)
    (fs : gmap str str) : result unit * gmap str str :=
  match resolve start_page end_page total_pages with
  | InvalidRangeError _ _ => (Ok tt, fs)
  | RangeOk actual_start actual_end =>
      let page_range :=
        py "_pages_" ++ str_of_int actual_start ++ py "-"
        ++ str_of_int actual_end in
      let output_manager := new_OutputManager output_dir pdf_dir dump_interval in
      let '(r, w) :=
        aggregate storage_mode dump_interval page_range
          (driver_results page_file_map extract actual_start actual_end)
          {| self := output_manager; files := fs |} in
      (r, files w)
  end.

(** *** The page files of a document directory (process_pages, lines
    290-320) *)

(** [get_page_number].  The builtins [str.isdigit] and [int] depend on the
    Unicode tables of the interpreter; they are taken as the arguments
    [isdigit] and [to_int] ([None] for [ValueError]). *)
Definition get_page_number (isdigit : char -> bool)
    (to_int : str -> option Z) (filename : str) : Z :=
  match split_on 95%N filename !! 1%nat with
  | None => 0
  | Some part =>
      match to_int (List.filter isdigit (first_item (split_on 46%N part))) with
      | Some n => n
      | None => 0
      end
  end.

(** [page_files]: the names of the directory that end in [.json], sorted by
    page number. *)
Definition page_files_of (isdigit : char -> bool) (to_int : str -> option Z)
    (listing : list str) : list str :=
  sorted (fun a b => get_page_number isdigit to_int a
                     <=? get_page_number isdigit to_int b)
    (List.filter (fun f => endswith f (py ".json")) listing).

(** [page_file_map]: the dictionary from page number to file name; a later
    file replaces an earlier one with the same number. *)
Definition page_file_map_of (isdigit : char -> bool)
    (to_int : str -> option Z) (page_files : list str) : gmap Z (list N) :=
  fold_left (fun m f => <[get_page_number isdigit to_int f := f]> m)
    page_files ∅.

End ExtractLiterary.

(** ** main.py and main_gui.py: the settings handed to process_pages *)

Module Main.
Import Py.
Local Open Scope Z_scope.

(** The page range (main.py lines 227-246, main_gui.py lines 257-273).  The
    input is blank ([None]) or holds two numbers; the result is the pair
    [(start_page, end_page)] given to [process_pages], or [None] when the
    input is refused. *)
Definition page_range_args (input : option (Z * Z))
  : option (option Z * option Z) :=
  match input with
  | None => Some (None, None)
  | Some (start, end_) =>
      if (start >? 0) && (end_ >=? start)
      then Some (Some start, Some end_)
      else None
  end.


End Main.

(** * Vocabulary of the statements

    Definitions that the statements and their proofs use: measures of
    chunks, the bytes of the output sections, the names of the temporary
    files, and the worlds that batch mode goes through. *)

Import Py.
Import EpubParse.
Import PdfParse.
Import ExtractLiterary.
Import Main.

Section Vocabulary.
Local Open Scope Z_scope.

(** Range resolution as the specification words it: both bounds clamped
    into [[1, totalUnits]]. *)
Definition clamp (total x : Z) : Z := Z.max 1 (Z.min x total).

Definition resolve_spec (requestedStart requestedEnd : option Z)
    (totalUnits : Z) : range_result :=
  let s := clamp totalUnits (default 1 requestedStart) in
  let e := clamp totalUnits (default totalUnits requestedEnd) in
  if (s >? e)%Z then InvalidRangeError s e else RangeOk s e.

(** A paragraph: a string without newline. *)
Definition nl_free (p : str) : Prop := count_char NL p = 0%nat.

(** The sum of the lengths of the paragraphs of a chunk: [current_size]. *)
Definition paragraphs_size (l : list str) : Z :=
  fold_right (fun p n => (len p + n)%Z) 0%Z l.

(** What the function returns from a loop state. *)
Definition split_result (st : split_state) : list str :=
  if truthy (current_chunk st)
  then chunks st ++ [join_nl (current_chunk st)]
  else chunks st.

(** The bound a chunk satisfies: its length, not counting the newlines that
    join its paragraphs, is at most [chunk_size], or it is one paragraph
    longer than [chunk_size]. *)
Definition chunk_bounded (chunk_size : Z) (c : str) : Prop :=
  (len c - count_nl c <= chunk_size)%Z
  \/ (count_nl c = 0%Z /\ (len c > chunk_size)%Z).

(** The loop invariant of [split_content]. *)
Record split_inv (chunk_size : Z) (st : split_state) : Prop := {
  inv_chunks : Forall (chunk_bounded chunk_size) (chunks st);
  inv_free : Forall nl_free (current_chunk st);
  inv_size : current_size st = paragraphs_size (current_chunk st);
  inv_room : (paragraphs_size (current_chunk st) <= chunk_size)%Z
             \/ (length (current_chunk st) <= 1)%nat
}.

(** What [os.path.join] puts before a relative name. *)
Definition dir_prefix (d : str) : str :=
  match d with
  | [] => []
  | _ => if (last_char d =? 47)%N then d else d ++ [47%N]
  end.

(** A text that ends in one of the terminal marks. *)
Definition ends_terminal (t : str) : bool :=
  char_in (last_char t) terminal_marks.

(** The record that the second pass leaves for a page. *)
Definition page_record (raises : nat -> bool) (pdf_name : str)
    (all_pages_text : list str) (total_pages : nat) (page_num : nat)
  : page_data :=
  {| page_number := Z.of_nat (page_num + 1);
     content := if raises page_num then []
                else default [] (reconcile_page all_pages_text total_pages page_num);
     source_pdf := pdf_name;
     total_pages := Z.of_nat total_pages |}.

(** The three pages of the scenario, as the reader delivers them. *)
Definition scenario_doc : list (option str) :=
  [Some (py "春风吹。"); Some (py "花开"); Some (py "了。")].







(** An instance with new values of its three mutable fields. *)
Definition with_batch (o : OutputManager) (cb : list (Z * str)) (bc : Z)
    (tf : list str) : OutputManager :=
  {| output_dir := output_dir o;
     pdf_name := pdf_name o;
     dump_interval := dump_interval o;
     current_batch := cb;
     batch_count := bc;
     temp_files := tf;
     pdf_output_dir := pdf_output_dir o |}.

(** The path of the temporary file number [k]. *)
Definition temp_name (d : str) (k : Z) : str :=
  path_join d (py "temp_batch_" ++ format_03d k ++ py ".txt").








(** Two consecutive chunks are cut greedily: the first paragraph of the
    second one did not fit into the first one. *)
Definition greedy_cut (chunk_size : Z) (c1 c2 : str) : Prop :=
  (len c1 - count_nl c1 + len (first_item (split_nl c2)) > chunk_size)%Z.

(** The invariant of the loop of [split_content] for the greedy cut. *)
Record greedy_inv (chunk_size : Z) (st : split_state) : Prop := {
  g_free : Forall nl_free (current_chunk st);
  g_size : current_size st = paragraphs_size (current_chunk st);
  g_adj : forall i c1 c2,
      chunks st !! i = Some c1 -> chunks st !! S i = Some c2 ->
      greedy_cut chunk_size c1 c2;
  g_last : forall c p,
      last (chunks st) = Some c -> head (current_chunk st) = Some p ->
      (len c - count_nl c + len p > chunk_size)%Z;
  g_start : current_chunk st = [] -> chunks st = []
}.




(** The name of the JSON file of a page inside the directory of its
    document. *)
Definition page_basename (page_number_width : Z) (page_num : nat) : str :=
  py "page_"
  ++ zfill (str_of_int (Z.of_nat (page_num + 1))) page_number_width
  ++ py ".json".

(** [isdigit] and [int] on ASCII strings, where they do not depend on the
    Unicode tables. *)
Definition ascii_isdigit (c : N) : bool := ((48 <=? c) && (c <=? 57))%N.

Fixpoint uint_of_digits (s : str) : option Decimal.uint :=
  match s with
  | [] => Some Decimal.Nil
  | c :: s' =>
      d ← uint_of_digits s';
      match c with
      | 48%N => Some (Decimal.D0 d)
      | 49%N => Some (Decimal.D1 d)
      | 50%N => Some (Decimal.D2 d)
      | 51%N => Some (Decimal.D3 d)
      | 52%N => Some (Decimal.D4 d)
      | 53%N => Some (Decimal.D5 d)
      | 54%N => Some (Decimal.D6 d)
      | 55%N => Some (Decimal.D7 d)
      | 56%N => Some (Decimal.D8 d)
      | 57%N => Some (Decimal.D9 d)
      | _ => None
      end
  end.

Definition ascii_int (s : str) : option Z :=
  match s with
  | [] => None
  | _ :: _ => d ← uint_of_digits s; Some (Z.of_uint d)
  end.

(** A text that begins with a space, and a text with two spaces in a row. *)
Definition starts_with_space (s : str) : bool :=
  match s with
  | [] => false
  | c :: _ => (c =? 32)%N
  end.

Fixpoint has_two_spaces (s : str) : bool :=
  match s with
  | [] => false
  | c :: s' => (c =? 32)%N && starts_with_space s' || has_two_spaces s'
  end.

(** The chunks of one chapter with the numbers [parse_epub] gives them,
    from the number [i] in the chapter and the number [chunk_index] in the
    book. *)
Fixpoint number_chunks (l : list str) (i chunk_index : Z) : list chunk_data :=
  match l with
  | [] => []
  | c :: rest =>
      {| EpubParse.content := c;
         EpubParse.chunk_index := chunk_index;
         chapter_chunk_index := i |}
      :: number_chunks rest (i + 1) (chunk_index + 1)
  end.

(** The chunks of a book, chapter after chapter. *)
Definition all_chunks (chs : list chapter_info) : list chunk_data :=
  concat (map chapter_chunks chs).

(** The items that give a chapter: the chapters whose cleaned text is not
    empty. *)
Definition kept (it : item) : bool :=
  is_chapter it && truthy (clean_html_content (get_text it)).

(** The chapters gathered from [items] when the next chunk is numbered
    [chunk_index]. *)
Fixpoint chapters_from (items : list item) (chunk_index : Z)
  : list chapter_info :=
  match items with
  | [] => []
  | it :: rest =>
      if kept it then
        let l := split_content (clean_html_content (get_text it)) 2000 in
        {| title := get_name it;
           chapter_chunks := number_chunks l 1 chunk_index |}
        :: chapters_from rest (chunk_index + Z.of_nat (length l))
      else chapters_from rest chunk_index
  end.

(** The chunk files written for a list of chunks. *)
Definition write_chunks (book_dir : str) (cds : list chunk_data)
    (fs : gmap str json_file) : gmap str json_file :=
  fold_left
    (fun fs cd =>
       <[chunk_file book_dir (EpubParse.chunk_index cd) := ChunkFile cd]> fs)
    cds fs.

(** The name and the text of a chapter of the result, its chunks joined by
    newlines; the name and the cleaned text of the items that are kept. *)
Definition chapter_text (ch : chapter_info) : str * str :=
  (title ch, join_nl (map EpubParse.content (chapter_chunks ch))).

Definition chapter_texts (items : list item) : list (str * str) :=
  map (fun it => (get_name it, clean_html_content (get_text it)))
    (List.filter kept items).

(** The name of the file of chunk [k], in the directory of the book. *)
Definition chunk_basename (k : Z) : str :=
  py "chunk_" ++ zfill (str_of_int k) 4 ++ py ".json".

End Vocabulary.

(** * Properties *)

(** ** The primitives on examples *)

Example py_literal : py "春风吹。" = [26149; 39118; 21561; 12290]%N.
Proof. vm_compute. reflexivity. Qed.

Example str_of_int_examples :
  str_of_int 120 = py "120" /\ str_of_int 0 = py "0"
  /\ str_of_int (-7) = py "-7".
Proof. vm_compute. repeat split; reflexivity. Qed.

Example format_03d_examples :
  format_03d 7 = py "007" /\ format_03d 1000 = py "1000"
  /\ format_03d (-5) = py "-05".
Proof. vm_compute. repeat split; reflexivity. Qed.

Example split_nl_examples :
  split_nl [] = [[]]
  /\ split_nl (py "a" ++ [NL]) = [py "a"; []]
  /\ split_nl (py "ab" ++ NL :: py "cd") = [py "ab"; py "cd"].
Proof. vm_compute. repeat split; reflexivity. Qed.

Example strip_example :
  strip (32%N :: NL :: py "a b" ++ [9; 12288]%N) = py "a b".
Proof. vm_compute. reflexivity. Qed.

Example path_join_examples :
  path_join (py "output") (py "book") = py "output/book"
  /\ path_join (py "output/") (py "book") = py "output/book"
  /\ path_join (py "output") (py "/book") = py "/book"
  /\ path_join [] (py "book") = py "book".
Proof. vm_compute. repeat split; reflexivity. Qed.

Example sorted_is_stable :
  sorted ExtractLiterary.page_le [(2, py "x"); (1, py "y"); (2, py "z")]%Z
  = [(1, py "y"); (2, py "x"); (2, py "z")]%Z.
Proof. vm_compute. reflexivity. Qed.

(** From batch 1000 on, the order of the names of the temporary files is
    no longer the order of their numbers. *)
Example temp_name_order_1000 :
  str_leb (temp_name (py "output/book") 1000) (temp_name (py "output/book") 101)
  = true
  /\ str_leb (temp_name (py "output/book") 101)
       (temp_name (py "output/book") 1000) = false.
Proof. vm_compute. split; reflexivity. Qed.

(** A document of three pages: reading page 2 fails and saving page 3 fails;
    both are recorded with an empty content, and page 1, whose neighbour is
    empty, is left as it is. *)
Example parse_pdf_failures :
  let doc := [Some (py "ab"); None; Some (py "cd")] in
  let out := parse_pdf doc (py "book") (py "sep_pages") (Nat.eqb 2) ∅ in
  out !! py "sep_pages/book/page_1.json"
  = Some (PageData 1 (py "ab") (py "book") 3)
  /\ out !! py "sep_pages/book/page_2.json"
     = Some (PageData 2 [] (py "book") 3)
  /\ out !! py "sep_pages/book/page_3.json"
     = Some (PageData 3 [] (py "book") 3).
Proof. vm_compute. repeat split; reflexivity. Qed.

(** ** Strings, paragraphs and sorting *)

Section Paragraphs.

Lemma truthy_ne {A} (l : list A) : l <> [] -> truthy l = true.
Proof. destruct l; [congruence|reflexivity]. Qed.

Lemma split_nl_nonempty (s : str) : split_nl s <> [].
Proof.
  destruct s as [|c s]; simpl; [discriminate|].
  destruct (c =? NL)%N; [discriminate|].
  destruct (split_nl s); discriminate.
Qed.

Lemma join_split_nl (s : str) : join_nl (split_nl s) = s.
Proof.
  induction s as [|c s IH]; simpl; [reflexivity|].
  destruct (N.eqb_spec c NL) as [->|Hc].
  - pose proof (split_nl_nonempty s) as Hne.
    destruct (split_nl s) as [|p ps]; [congruence|].
    simpl in *. rewrite IH. reflexivity.
  - destruct (split_nl s) as [|p ps] eqn:E.
    + exfalso. eapply split_nl_nonempty; eauto.
    + simpl in *. destruct ps; simpl in *; rewrite <- IH; reflexivity.
Qed.

Lemma join_nl_cons (p : str) (l : list str) :
  l <> [] -> join_nl (p :: l) = p ++ NL :: join_nl l.
Proof. destruct l; [congruence|reflexivity]. Qed.

Lemma join_nl_app (l1 l2 : list str) :
  l1 <> [] -> l2 <> [] ->
  join_nl (l1 ++ l2) = join_nl l1 ++ NL :: join_nl l2.
Proof.
  induction l1 as [|p l1 IH]; intros H1 H2; [congruence|].
  destruct l1 as [|q l1].
  - simpl app. rewrite join_nl_cons by assumption. reflexivity.
  - change ((p :: q :: l1) ++ l2) with (p :: ((q :: l1) ++ l2)).
    rewrite join_nl_cons by discriminate.
    rewrite IH by (assumption || discriminate).
    rewrite (join_nl_cons p (q :: l1)) by discriminate.
    rewrite <- app_assoc. reflexivity.
Qed.

Lemma split_nl_free (s : str) : Forall nl_free (split_nl s).
Proof.
  induction s as [|c s IH]; simpl.
  - repeat constructor.
  - destruct (N.eqb_spec c NL) as [->|Hc].
    + constructor; [reflexivity|assumption].
    + destruct (split_nl s) as [|p ps].
      * constructor; [|constructor]. unfold nl_free. simpl.
        destruct (N.eqb_spec c NL); [contradiction|reflexivity].
      * inversion IH; subst. constructor; [|assumption].
        unfold nl_free in *. simpl.
        destruct (N.eqb_spec c NL); [contradiction|assumption].
Qed.

Lemma count_char_app (c : char) (a b : str) :
  count_char c (a ++ b) = (count_char c a + count_char c b)%nat.
Proof. induction a as [|x a IH]; simpl; [reflexivity|]. rewrite IH. lia. Qed.

Lemma paragraphs_size_app (l1 l2 : list str) :
  paragraphs_size (l1 ++ l2) = (paragraphs_size l1 + paragraphs_size l2)%Z.
Proof. induction l1 as [|p l1 IH]; simpl; [reflexivity|]. rewrite IH. lia. Qed.

Lemma len_app (a b : str) : len (a ++ b) = (len a + len b)%Z.
Proof. unfold len. rewrite length_app. lia. Qed.

Lemma len_nonneg (a : str) : (0 <= len a)%Z.
Proof. unfold len. lia. Qed.

Lemma join_nl_measure (l : list str) :
  Forall nl_free l -> l <> [] ->
  len (join_nl l) = (paragraphs_size l + Z.of_nat (length l) - 1)%Z
  /\ count_nl (join_nl l) = (Z.of_nat (length l) - 1)%Z.
Proof.
  induction l as [|p l IH]; intros Hf Hne; [congruence|].
  inversion Hf as [|? ? Hp Hl]; subst.
  destruct l as [|q l].
  - simpl. unfold count_nl. rewrite Hp. lia.
  - rewrite join_nl_cons by discriminate.
    destruct (IH Hl ltac:(discriminate)) as [IH1 IH2].
    rewrite len_app. unfold count_nl in *. rewrite count_char_app.
    change (NL :: join_nl (q :: l)) with ([NL] ++ join_nl (q :: l)).
    rewrite len_app, count_char_app, Hp, IH1.
    change (paragraphs_size (p :: q :: l))
      with (len p + paragraphs_size (q :: l))%Z.
    change (len [NL]) with 1%Z. change (count_char NL [NL]) with 1%nat.
    split; [simpl length; lia|].
    simpl length in *. lia.
Qed.

End Paragraphs.

(** ** epub_parse.split_content *)

Section SplitContent.
Import EpubParse.

Variable chunk_size : Z.

Lemma join_nl_snoc_merge (l : list str) (a b : str) :
  join_nl (l ++ [a ++ NL :: b]) = join_nl ((l ++ [a]) ++ [b]).
Proof.
  destruct l as [|p l].
  - reflexivity.
  - assert (H1 : (p :: l) ++ [a] <> []) by discriminate.
    rewrite (join_nl_app ((p :: l) ++ [a]) [b]) by (assumption || discriminate).
    rewrite !(join_nl_app (p :: l)) by discriminate.
    simpl. rewrite <- !app_assoc. reflexivity.
Qed.

Lemma split_loop_join (paras : list str) (st : split_state) :
  current_chunk st <> [] \/ paras <> [] ->
  join_nl (split_result (fold_left (split_step chunk_size) paras st))
  = join_nl (chunks st ++ [join_nl (current_chunk st ++ paras)]).
Proof.
  revert st. induction paras as [|para paras IH]; intros st Hne.
  - destruct Hne as [Hne|Hne]; [|congruence].
    simpl. unfold split_result. rewrite app_nil_r.
    destruct (current_chunk st); [congruence|reflexivity].
  - simpl fold_left. rewrite IH.
    + unfold split_step.
      destruct ((current_size st + len para >? chunk_size)%Z
                && truthy (current_chunk st)) eqn:E; simpl.
      * apply andb_true_iff in E as [_ E].
        assert (Hcc : current_chunk st <> [])
          by (destruct (current_chunk st); discriminate).
        rewrite (join_nl_app (current_chunk st) (para :: paras))
          by (assumption || discriminate).
        symmetry. apply join_nl_snoc_merge.
      * rewrite <- app_assoc. reflexivity.
    + left. unfold split_step.
      destruct ((current_size st + len para >? chunk_size)%Z
                && truthy (current_chunk st)); simpl;
        [discriminate|destruct (current_chunk st); discriminate].
Qed.

Lemma chunk_bounded_join (l : list str) :
  Forall nl_free l -> l <> [] ->
  (paragraphs_size l <= chunk_size)%Z \/ (length l <= 1)%nat ->
  chunk_bounded chunk_size (join_nl l).
Proof.
  intros Hf Hne Hroom.
  destruct (join_nl_measure l Hf Hne) as [Hlen Hcnt].
  unfold chunk_bounded. rewrite Hlen, Hcnt.
  destruct Hroom as [Hroom|Hroom]; [left; lia|].
  destruct l as [|p [|q l]]; [congruence| |simpl in Hroom; lia].
  simpl. destruct (Z_le_gt_dec (len p) chunk_size); [left|right]; lia.
Qed.

Lemma split_step_inv (st : split_state) (para : str) :
  split_inv chunk_size st -> nl_free para ->
  split_inv chunk_size (split_step chunk_size st para).
Proof.
  intros [Hc Hf Hs Hr] Hp. unfold split_step.
  destruct ((current_size st + len para >? chunk_size)%Z
            && truthy (current_chunk st)) eqn:E.
  - apply andb_true_iff in E as [_ E].
    constructor; simpl.
    + apply Forall_app. split; [assumption|].
      constructor; [|constructor].
      apply chunk_bounded_join; try assumption.
      destruct (current_chunk st); [discriminate|discriminate].
    + constructor; [assumption|constructor].
    + lia.
    + right. lia.
  - constructor; simpl.
    + assumption.
    + apply Forall_app. split; [assumption|]. constructor; [assumption|constructor].
    + rewrite paragraphs_size_app. simpl. lia.
    + apply andb_false_iff in E as [E|E].
      * left. rewrite paragraphs_size_app. simpl. lia.
      * right. destruct (current_chunk st); [simpl; lia|discriminate].
Qed.

Lemma split_loop_inv (paras : list str) (st : split_state) :
  split_inv chunk_size st -> Forall nl_free paras ->
  split_inv chunk_size (fold_left (split_step chunk_size) paras st).
Proof.
  revert st. induction paras as [|para paras IH]; intros st Hst Hf; [assumption|].
  inversion Hf; subst. simpl. apply IH; [|assumption].
  apply split_step_inv; assumption.
Qed.

Lemma split_result_bounded (st : split_state) :
  split_inv chunk_size st -> Forall (chunk_bounded chunk_size) (split_result st).
Proof.
  intros [Hc Hf Hs Hr]. unfold split_result.
  destruct (current_chunk st) as [|p l] eqn:E; [assumption|].
  simpl truthy. cbv iota. apply Forall_app. split; [assumption|].
  constructor; [|constructor].
  apply chunk_bounded_join; [assumption|discriminate|assumption].
Qed.

End SplitContent.

(** C3, as stated, fails: with target size 4 the text ["ab\ncd"] is returned
    as one chunk of two paragraphs and five characters. *)
Lemma C3_counterexample :
  exists c : str,
    c ∈ EpubParse.split_content (py "ab" ++ NL :: py "cd") 4
    /\ (len c > 4)%Z
    /\ split_nl c = [py "ab"; py "cd"].
Proof.
  exists (py "ab" ++ NL :: py "cd").
  split; [|split]; [|reflexivity|reflexivity].
  vm_compute. apply list_elem_of_here.
Qed.

(** C3 (amended): every chunk returned by [split_content T S] has at most
    [S] characters besides the newlines that separate its paragraphs, except
    a chunk that is a single paragraph (it holds no newline) whose own length
    exceeds [S]. *)
Theorem C3_chunk_bound (T : str) (S : Z) (c : str) :
  c ∈ EpubParse.split_content T S ->
  (len c - count_nl c <= S)%Z \/ (count_nl c = 0%Z /\ (len c > S)%Z).
Proof.
  intros Hin.
  assert (H : Forall (chunk_bounded S) (EpubParse.split_content T S)).
  { apply (split_result_bounded S). apply split_loop_inv.
    - constructor; simpl; [constructor|constructor|reflexivity|right; lia].
    - apply split_nl_free. }
  rewrite Forall_forall in H. exact (H c Hin).
Qed.

(** The bound of C3 at the text ["ab\ncd"] with target size 4. *)
Lemma C3_chunk_bound_witness :
  py "ab" ++ NL :: py "cd" ∈ EpubParse.split_content (py "ab" ++ NL :: py "cd") 4
  /\ ((len (py "ab" ++ NL :: py "cd") - count_nl (py "ab" ++ NL :: py "cd") <= 4)%Z
      \/ (count_nl (py "ab" ++ NL :: py "cd") = 0%Z
          /\ (len (py "ab" ++ NL :: py "cd") > 4)%Z)).
Proof.
  assert (H : py "ab" ++ NL :: py "cd"
              ∈ EpubParse.split_content (py "ab" ++ NL :: py "cd") 4).
  { vm_compute. apply list_elem_of_here. }
  split; [exact H|].
  exact (C3_chunk_bound (py "ab" ++ NL :: py "cd") 4 (py "ab" ++ NL :: py "cd") H).
Defined.

(** C4: joining the chunks of [split_content T S], in order, with a newline
    between consecutive chunks gives back [T], for every text and size. *)
Theorem C4_chunk_integrity (T : str) (S : Z) :
  join_nl (EpubParse.split_content T S) = T.
Proof.
  unfold EpubParse.split_content.
  change (join_nl (split_result
            (fold_left (EpubParse.split_step S) (split_nl T)
               {| EpubParse.chunks := []; EpubParse.current_chunk := [];
                  EpubParse.current_size := 0 |})) = T).
  rewrite split_loop_join.
  - simpl. apply join_split_nl.
  - right. apply split_nl_nonempty.
Qed.

(** ** Range resolution *)

Section RangeResolution.
Import ExtractLiterary.
Local Open Scope Z_scope.

(** C2, as stated, fails: a requested end below 1 is not raised to 1.  For
    [resolve(None, 0, 10)] both bounds clamped into [[1, 10]] are 1, so the
    clamped start does not exceed the clamped end, yet the code reports the
    range as invalid. *)
Lemma C2_counterexample :
  resolve None (Some 0) 10 = InvalidRangeError 1 0
  /\ resolve_spec None (Some 0) 10 = RangeOk 1 1
  /\ ~ (clamp 10 1 > clamp 10 0).
Proof. split; [reflexivity|split; [reflexivity|]]. vm_compute. discriminate. Qed.

(** C2 (amended): for [totalUnits >= 1], a [None] start defaults to 1 and a
    [None] end to [totalUnits]; a requested start is clamped into
    [[1, totalUnits]], a requested end is only capped at [totalUnits] (an end
    below 1 stays as it is); resolution fails exactly when the clamped start
    exceeds the capped end, and a resolved range satisfies
    [1 <= start <= end <= totalUnits].  When the requested end is absent or
    at least 1 this is the range of the specification.  In particular
    [resolve(0, 1000, 10) = {1,10}], [resolve(3, 2, 10)] fails and
    [resolve(None, None, 7) = {1,7}]. *)
Theorem C2_resolve (start_page end_page : option Z) (total_pages : Z) :
  1 <= total_pages ->
  let s := match start_page with
           | None => 1
           | Some x => clamp total_pages x
           end in
  let e := match end_page with
           | None => total_pages
           | Some y => Z.min y total_pages
           end in
  1 <= s <= total_pages
  /\ e <= total_pages
  /\ (s > e -> resolve start_page end_page total_pages = InvalidRangeError s e)
  /\ (s <= e -> resolve start_page end_page total_pages = RangeOk s e
                /\ 1 <= s <= e /\ e <= total_pages)
  /\ (match end_page with None => True | Some y => 1 <= y end ->
      resolve start_page end_page total_pages
      = resolve_spec start_page end_page total_pages)
  /\ resolve (Some 0) (Some 1000) 10 = RangeOk 1 10
  /\ resolve (Some 3) (Some 2) 10 = InvalidRangeError 3 2
  /\ resolve None None 7 = RangeOk 1 7.
Proof.
  intros Htot s e.
  assert (Hs : 1 <= s <= total_pages).
  { subst s. destruct start_page; unfold clamp; lia. }
  assert (He : e <= total_pages).
  { subst e. destruct end_page; lia. }
  assert (Hres : resolve start_page end_page total_pages
                 = if s >? e then InvalidRangeError s e else RangeOk s e).
  { subst s e. unfold resolve, clamp. destruct start_page, end_page; reflexivity. }
  repeat split; try lia; try reflexivity.
  - intros Hgt. rewrite Hres.
    destruct (Z.gtb_spec s e); [reflexivity|lia].
  - rewrite Hres. destruct (Z.gtb_spec s e); [lia|reflexivity].
  - intros Hy. rewrite Hres. unfold resolve_spec. subst s e.
    assert (C1 : clamp total_pages 1 = 1) by (unfold clamp; lia).
    assert (C2 : clamp total_pages total_pages = total_pages)
      by (unfold clamp; lia).
    assert (C3 : forall y, 1 <= y -> clamp total_pages y = Z.min y total_pages)
      by (intros; unfold clamp; lia).
    destruct start_page as [x|], end_page as [y|]; simpl default;
      rewrite ?C1, ?C2; try rewrite (C3 _ Hy); reflexivity.
Qed.

(** The resolution of C2 at [resolve(-4, 25, 10)]. *)
Lemma C2_resolve_witness :
  1 <= 10
  /\ resolve (Some (-4)) (Some 25) 10 = RangeOk 1 10.
Proof.
  split; [lia|].
  destruct (C2_resolve (Some (-4)) (Some 25) 10 ltac:(lia))
    as (_ & _ & _ & H & _).
  apply H. vm_compute. discriminate.
Defined.

End RangeResolution.

(** ** Decimal numerals and paths *)

Section Numerals.

Lemma digits_inj (d1 d2 : Decimal.uint) : digits d1 = digits d2 -> d1 = d2.
Proof.
  revert d2. induction d1; destruct d2; simpl; intros H;
    try discriminate H; try reflexivity;
    injection H as H; f_equal; auto.
Qed.

Lemma digits_head (d : Decimal.uint) (c : char) (s : str) :
  digits d = c :: s -> ((c =? 43) || (c =? 45))%N = false /\ c <> 47%N.
Proof.
  destruct d; simpl; intros H; try discriminate H;
    injection H as <- _; split; (reflexivity || discriminate).
Qed.

Lemma digits_zeros (k : nat) (d : Decimal.uint) :
  replicate k 48%N ++ digits d = digits (Nat.iter k Decimal.D0 d).
Proof. induction k as [|k IH]; simpl; [reflexivity|]. rewrite IH. reflexivity. Qed.

Lemma of_uint_zeros (k : nat) (d : Decimal.uint) :
  Pos.of_uint (Nat.iter k Decimal.D0 d) = Pos.of_uint d.
Proof. induction k as [|k IH]; simpl; [reflexivity|]. exact IH. Qed.

Lemma zfill_digits (d : Decimal.uint) (width : Z) :
  zfill (digits d) width
  = digits (Nat.iter (Z.to_nat (width - len (digits d))) Decimal.D0 d).
Proof.
  unfold zfill. destruct (digits d) as [|c s] eqn:E.
  - rewrite <- digits_zeros, E, app_nil_r. reflexivity.
  - destruct (digits_head d c s E) as [-> _].
    rewrite <- digits_zeros, E. reflexivity.
Qed.

(** Zero-filled numerals of positive numbers are distinct, whatever the
    width. *)
Lemma zfill_pos_inj (p q : positive) (width : Z) :
  zfill (str_of_int (Zpos p)) width = zfill (str_of_int (Zpos q)) width ->
  p = q.
Proof.
  simpl. rewrite !zfill_digits. intros H. apply digits_inj in H.
  apply (f_equal Pos.of_uint) in H. rewrite !of_uint_zeros in H.
  rewrite !DecimalPos.Unsigned.of_to in H. congruence.
Qed.

Lemma path_join_relative (d : str) (c : char) (f : str) :
  c <> 47%N -> path_join d (c :: f) = dir_prefix d ++ c :: f.
Proof.
  intros Hc. unfold path_join, dir_prefix.
  destruct c as [|p]; [destruct d; [reflexivity|];
    destruct (last_char (n :: d) =? 47)%N; [reflexivity|];
    rewrite <- app_assoc; reflexivity|].
  assert (H : forall X Y : str,
             match (N.pos p :: f) with 47%N :: _ => X | _ => Y end = Y).
  { intros X Y.
    repeat (destruct p as [p|p|]; try reflexivity). congruence. }
  rewrite H. destruct d; [reflexivity|].
  destruct (last_char (n :: d) =? 47)%N; [reflexivity|].
  rewrite <- app_assoc. reflexivity.
Qed.

End Numerals.

(** ** pdf_parse.parse_pdf *)

Section Reconciliation.
Import PdfParse.

Lemma page_file_inj (d : str) (width : Z) (i j : nat) :
  page_file d width i = page_file d width j -> i = j.
Proof.
  unfold page_file.
  change (py "page_") with (112%N :: py "age_"). simpl app.
  rewrite !path_join_relative by discriminate.
  intros H. apply app_inv_head in H. injection H as H.
  apply app_inv_tail in H.
  rewrite !Nat.add_1_r in H. simpl Z.of_nat in H.
  apply zfill_pos_inj in H. apply SuccNat2Pos.inj in H. exact H.
Qed.

Section SecondPass.

Variable raises : nat -> bool.
Variables pdf_name pdf_output_dir : str.
Variable all_pages_text : list str.
Variable total : nat.
Variable width : Z.

Local Abbreviation save :=
  (save_page raises pdf_name pdf_output_dir all_pages_text total width).
Local Abbreviation file := (page_file pdf_output_dir width).
Local Abbreviation record := (page_record raises pdf_name all_pages_text total).

Lemma save_page_insert (dir : gmap str page_data) (i : nat) :
  save dir i = <[file i := record i]> dir.
Proof.
  unfold save, save_page, file, record, page_record.
  destruct (raises i); [reflexivity|].
  destruct (reconcile_page all_pages_text total i); reflexivity.
Qed.

Lemma fold_save_other (l : list nat) (dir : gmap str page_data) (f : str) :
  (forall i, i ∈ l -> f <> file i) ->
  fold_left save l dir !! f = dir !! f.
Proof.
  revert dir. induction l as [|a l IH]; intros dir Hf; [reflexivity|].
  simpl. rewrite IH.
  - rewrite save_page_insert. apply lookup_insert_ne.
    intros E. apply (Hf a); [left|congruence].
  - intros i Hi. apply Hf. right. exact Hi.
Qed.

Lemma fold_save_lookup (l : list nat) (dir : gmap str page_data) (i : nat) :
  NoDup l -> i ∈ l -> fold_left save l dir !! file i = Some (record i).
Proof.
  revert dir. induction l as [|a l IH]; intros dir Hnd Hi.
  - inversion Hi.
  - apply NoDup_cons in Hnd as [Ha Hnd]. simpl.
    destruct (decide (i = a)) as [->|Hne].
    + rewrite fold_save_other.
      * rewrite save_page_insert. apply lookup_insert_eq.
      * intros j Hj E. apply page_file_inj in E. congruence.
    + apply IH; [assumption|].
      apply elem_of_cons in Hi as [Hi|Hi]; [congruence|assumption].
Qed.

Lemma fold_save_size (l : list nat) (dir : gmap str page_data) :
  NoDup l -> (forall i, i ∈ l -> dir !! file i = None) ->
  size (fold_left save l dir) = (size dir + length l)%nat.
Proof.
  revert dir. induction l as [|a l IH]; intros dir Hnd Hfree.
  - simpl. lia.
  - apply NoDup_cons in Hnd as [Ha Hnd]. simpl. rewrite IH.
    + rewrite save_page_insert, map_size_insert_None; [lia|].
      apply Hfree. left.
    + assumption.
    + intros i Hi. rewrite save_page_insert, lookup_insert_ne.
      * apply Hfree. right. exact Hi.
      * intros E. apply page_file_inj in E. congruence.
Qed.

Lemma second_pass_lookup (dir : gmap str page_data) (i : nat) :
  (i < total)%nat ->
  second_pass raises pdf_name pdf_output_dir all_pages_text total width dir
    !! file i = Some (record i).
Proof.
  intros Hi. apply fold_save_lookup; [apply NoDup_seq|].
  apply elem_of_seq. lia.
Qed.

Lemma second_pass_other (dir : gmap str page_data) (f : str) :
  (forall i, (i < total)%nat -> f <> file i) ->
  second_pass raises pdf_name pdf_output_dir all_pages_text total width dir
    !! f = dir !! f.
Proof.
  intros Hf. apply fold_save_other. intros i Hi.
  apply Hf. apply elem_of_seq in Hi. lia.
Qed.

Lemma second_pass_size :
  size (second_pass raises pdf_name pdf_output_dir all_pages_text total width ∅)
  = total.
Proof.
  unfold second_pass. fold save. rewrite fold_save_size.
  - rewrite map_size_empty, length_seq. reflexivity.
  - apply NoDup_seq.
  - intros. apply lookup_empty.
Qed.

End SecondPass.

Lemma reconcile_empty (all_pages_text : list str) (total i : nat) :
  all_pages_text !! i = Some [] ->
  reconcile_page all_pages_text total i = Some [].
Proof.
  intros H. unfold reconcile_page. rewrite H. simpl.
  unfold prepend_step. simpl truthy. rewrite andb_false_r. simpl.
  unfold append_step. simpl truthy. rewrite andb_false_r. reflexivity.
Qed.

Lemma reconcile_noop (all_pages_text : list str) (i : nat) (t : str) :
  Forall (fun t => t = [] \/ ends_terminal t = true) all_pages_text ->
  all_pages_text !! i = Some t ->
  reconcile_page all_pages_text (length all_pages_text) i = Some t.
Proof.
  intros Hall Ht.
  assert (Hterm : forall j u, all_pages_text !! j = Some u ->
                    truthy u = true -> ends_terminal u = true).
  { intros j u Hu Hne. rewrite Forall_lookup in Hall.
    destruct (Hall j u Hu) as [->|H]; [discriminate|exact H]. }
  pose proof (lookup_lt_Some _ _ _ Ht) as Hlt.
  unfold reconcile_page. rewrite Ht. cbn [mbind option_bind].
  assert (Hpre : prepend_step all_pages_text i t = Some t).
  { unfold prepend_step.
    destruct ((0 <? i)%nat && truthy t) eqn:E; [|reflexivity].
    apply andb_true_iff in E as [Hi _]. apply Nat.ltb_lt in Hi.
    destruct (lookup_lt_is_Some_2 all_pages_text (i - 1) ltac:(lia))
      as [prev Hprev].
    rewrite Hprev. cbn [mbind option_bind].
    destruct (truthy prev) eqn:Hp; [|reflexivity].
    fold (ends_terminal prev). rewrite (Hterm _ _ Hprev Hp). reflexivity. }
  rewrite Hpre. cbn [mbind option_bind].
  unfold append_step.
  destruct ((Z.of_nat i <? Z.of_nat (length all_pages_text) - 1)%Z && truthy t)
    eqn:E; [|reflexivity].
  apply andb_true_iff in E as [Hi Hne]. apply Z.ltb_lt in Hi.
  destruct (lookup_lt_is_Some_2 all_pages_text (i + 1) ltac:(lia))
    as [next Hnext].
  rewrite Hnext. cbn [mbind option_bind].
  destruct (truthy next); [|reflexivity].
  fold (ends_terminal t). rewrite (Hterm _ _ Ht Hne), Hne. reflexivity.
Qed.

End Reconciliation.

Section ReconciliationClaims.
Import PdfParse.

(** C5, as stated, fails on page 3: the raw text of page 2 does not end in a
    terminal mark, so its last paragraph is put in front of page 3, whose
    corrected text is not its raw text. *)
Lemma C5_counterexample :
  reconcile_page (collect_texts scenario_doc) 3 2 = Some (py "花开了。")
  /\ reconcile_page (collect_texts scenario_doc) 3 2 <> Some (py "了。").
Proof. split; [reflexivity|]. vm_compute. discriminate. Qed.

(** C5 (amended): for the 3-page document with page texts "春风吹。", "花开",
    "了。", the corrected page 1 is "春风吹。" (unchanged), the corrected page
    2 is "花开了。" (the first paragraph of page 3 appended), and the corrected
    page 3 is "花开了。" as well (the last paragraph of page 2's raw text put in
    front of it); these are the contents of the three page files written. *)
Theorem C5_scenario (pdf_name output_dir : str) (dir0 : gmap str page_data) :
  let all_pages_text := collect_texts scenario_doc in
  let out := parse_pdf scenario_doc pdf_name output_dir (fun _ => false) dir0 in
  let file := page_file (path_join output_dir pdf_name) 1 in
  reconcile_page all_pages_text 3 0 = Some (py "春风吹。")
  /\ reconcile_page all_pages_text 3 1 = Some (py "花开了。")
  /\ reconcile_page all_pages_text 3 2 = Some (py "花开了。")
  /\ content <$> out !! file 0%nat = Some (py "春风吹。")
  /\ content <$> out !! file 1%nat = Some (py "花开了。")
  /\ content <$> out !! file 2%nat = Some (py "花开了。").
Proof.
  cbv zeta. repeat split; try reflexivity;
    unfold parse_pdf;
    change (length scenario_doc) with 3%nat;
    change (len (str_of_int (Z.of_nat 3))) with 1%Z;
    rewrite second_pass_lookup by lia; reflexivity.
Qed.

(** C6, as stated, fails: the text put in front of a page is taken from the
    raw text of its predecessor.  For the pages "a", "b", "c" the corrected
    page 2 is "abc"; neither it nor the raw "b" ends in a terminal mark; page
    3 becomes "bc", not "abc" followed by "c". *)
Lemma C6_counterexample :
  let all_pages_text := [py "a"; py "b"; py "c"] in
  reconcile_page all_pages_text 3 1 = Some (py "abc")
  /\ ends_terminal (py "b") = false
  /\ ends_terminal (py "abc") = false
  /\ reconcile_page all_pages_text 3 2 = Some (py "bc")
  /\ reconcile_page all_pages_text 3 2
     <> Some (last_item (split_nl (py "abc")) ++ py "c").
Proof. repeat split; try reflexivity. vm_compute. discriminate. Qed.

(** C6 (amended): for every page after the first with non-empty text whose
    predecessor's raw text (as collected by the first pass) is non-empty and
    does not end in one of 。！？.!?, the reconciler puts the last paragraph of
    that raw text in front of the page's text; the corrected text of the
    predecessor is never consulted.  The page's corrected text is this,
    followed by what the append step adds (nothing, or the first paragraph of
    the next page). *)
Theorem C6_prepend_raw (all_pages_text : list str) (page_num : nat)
    (current_text prev_text : str) :
  (0 < page_num)%nat ->
  all_pages_text !! page_num = Some current_text ->
  current_text <> [] ->
  all_pages_text !! (page_num - 1)%nat = Some prev_text ->
  prev_text <> [] ->
  ends_terminal prev_text = false ->
  let last_paragraph := last_item (split_nl prev_text) in
  prepend_step all_pages_text page_num current_text
  = Some (last_paragraph ++ current_text)
  /\ exists suffix,
       reconcile_page all_pages_text (length all_pages_text) page_num
       = Some (last_paragraph ++ current_text ++ suffix)
       /\ (suffix = []
           \/ exists next_text,
                all_pages_text !! (page_num + 1)%nat = Some next_text
                /\ suffix = first_item (split_nl next_text)).
Proof.
  intros Hpos Hcur Hne Hprev Hpne Hterm last_paragraph.
  assert (Hpre : prepend_step all_pages_text page_num current_text
                 = Some (last_paragraph ++ current_text)).
  { unfold prepend_step.
    rewrite (proj2 (Nat.ltb_lt 0 page_num) Hpos), (truthy_ne _ Hne).
    cbn [andb]. rewrite Hprev. cbn [mbind option_bind].
    rewrite (truthy_ne _ Hpne). fold (ends_terminal prev_text).
    rewrite Hterm. cbn [andb negb].
    rewrite (truthy_ne _ (split_nl_nonempty prev_text)).
    unfold last_paragraph.
    destruct (last_item (split_nl prev_text)); reflexivity. }
  split; [exact Hpre|].
  unfold reconcile_page. rewrite Hcur. cbn [mbind option_bind].
  rewrite Hpre. cbn [mbind option_bind].
  unfold append_step.
  destruct ((Z.of_nat page_num <? Z.of_nat (length all_pages_text) - 1)%Z
            && truthy (last_paragraph ++ current_text)) eqn:E.
  - apply andb_true_iff in E as [Hi _]. apply Z.ltb_lt in Hi.
    destruct (lookup_lt_is_Some_2 all_pages_text (page_num + 1) ltac:(lia))
      as [next Hnext].
    rewrite Hnext. cbn [mbind option_bind].
    destruct (truthy next);
      [|exists []; rewrite app_nil_r; split; [reflexivity|left; reflexivity]].
    destruct (truthy (last_paragraph ++ current_text)
              && negb (char_in (last_char (last_paragraph ++ current_text))
                         terminal_marks));
      [|exists []; rewrite app_nil_r; split; [reflexivity|left; reflexivity]].
    pose proof (split_nl_nonempty next) as Hs.
    destruct (split_nl next) as [|q qs] eqn:En; [congruence|].
    simpl truthy. cbv iota. simpl first_item.
    destruct (truthy q).
    + exists q. rewrite <- app_assoc.
      split; [reflexivity|]. right. exists next. rewrite En. auto.
    + exists []. rewrite app_nil_r. split; [reflexivity|left; reflexivity].
  - exists []. rewrite app_nil_r. split; [reflexivity|left; reflexivity].
Qed.

(** The prepend step of C6 at the pages "a", "b", "c", for page 3. *)
Lemma C6_prepend_raw_witness :
  prepend_step [py "a"; py "b"; py "c"] 2 (py "c")
  = Some (last_item (split_nl (py "b")) ++ py "c").
Proof.
  exact (proj1 (C6_prepend_raw [py "a"; py "b"; py "c"] 2 (py "c") (py "b")
                  ltac:(lia) eq_refl ltac:(discriminate) eq_refl
                  ltac:(discriminate) eq_refl)).
Defined.

(** C7: when every non-empty page text ends in one of the terminal marks
    。！？.!?, the reconciliation pass changes nothing: the corrected text of
    every page, and the content written for it, is its input text. *)
Theorem C7_terminal_noop (all_pages_text : list str)
    (pdf_name pdf_output_dir : str) (width : Z) (dir0 : gmap str page_data)
    (i : nat) (t : str) :
  Forall (fun t => t = [] \/ ends_terminal t = true) all_pages_text ->
  all_pages_text !! i = Some t ->
  reconcile_page all_pages_text (length all_pages_text) i = Some t
  /\ content <$>
       second_pass (fun _ => false) pdf_name pdf_output_dir all_pages_text
         (length all_pages_text) width dir0
       !! page_file pdf_output_dir width i
     = Some t.
Proof.
  intros Hall Ht.
  pose proof (reconcile_noop all_pages_text i t Hall Ht) as Hrec.
  split; [exact Hrec|].
  rewrite second_pass_lookup by (eapply lookup_lt_Some; eauto).
  unfold page_record. simpl. rewrite Hrec. reflexivity.
Qed.

(** The no-op of C7 on three pages, the second one empty. *)
Lemma C7_terminal_noop_witness :
  reconcile_page [py "春风吹。"; []; py "So it ends?"] 3 2
  = Some (py "So it ends?").
Proof.
  refine (proj1 (C7_terminal_noop [py "春风吹。"; []; py "So it ends?"]
                   (py "book") (py "sep_pages/book") 1 ∅ 2 (py "So it ends?")
                   _ eq_refl)).
  repeat constructor; right; reflexivity.
Defined.

(** C9: for every document of N pages [parse_pdf] leaves exactly N page
    records, one file per page, with page numbers 1..N and total count N,
    also when reading a page fails in the first pass or processing it fails
    in the second: such a page is recorded with the empty text. *)
Theorem C9_page_accounting (doc : list (option str)) (pdf_name output_dir : str)
    (raises : nat -> bool) (dir0 : gmap str page_data) :
  let N := length doc in
  let file := page_file (path_join output_dir pdf_name)
                (len (str_of_int (Z.of_nat N))) in
  let out := parse_pdf doc pdf_name output_dir raises dir0 in
  length (collect_texts doc) = N
  /\ (forall i, (i < N)%nat ->
        exists r, out !! file i = Some r
                  /\ page_number r = (Z.of_nat i + 1)%Z
                  /\ total_pages r = Z.of_nat N
                  /\ source_pdf r = pdf_name
                  /\ (doc !! i = Some None \/ raises i = true ->
                      content r = []))
  /\ (forall i j, file i = file j -> i = j)
  /\ (forall f, (forall i, (i < N)%nat -> f <> file i) -> out !! f = dir0 !! f)
  /\ size (parse_pdf doc pdf_name output_dir raises ∅) = N.
Proof.
  cbv zeta. unfold parse_pdf.
  split; [apply length_map|].
  split; [|split; [|split]].
  - intros i Hi. eexists. split; [apply second_pass_lookup; exact Hi|].
    unfold page_record. simpl.
    split; [lia|]. split; [reflexivity|]. split; [reflexivity|].
    intros [Hread|Hraise]; [|rewrite Hraise; reflexivity].
    destruct (raises i); [reflexivity|].
    rewrite reconcile_empty; [reflexivity|].
    unfold collect_texts. rewrite list_lookup_fmap, Hread. reflexivity.
  - intros i j. apply page_file_inj.
  - intros f Hf. apply second_pass_other. exact Hf.
  - apply second_pass_size.
Qed.

End ReconciliationClaims.

(** ** extract_literary.OutputManager *)

Section OutputFiles.
Import ExtractLiterary.
Local Open Scope Z_scope.

Lemma with_batch_id (o : OutputManager) :
  with_batch o (current_batch o) (batch_count o) (temp_files o) = o.
Proof. destruct o; reflexivity. Qed.

Lemma run_bind {A B} (m : M A) (k : A -> M B) (w : world) :
  (m ≫= k) w = match m w with
               | (Ok a, w') => k a w'
               | (Raise e, w') => (Raise e, w')
               end.
Proof. reflexivity. Qed.








Lemma dump_interval_batch_nil (w : world) :
  current_batch (self w) = [] -> dump_interval_batch w = (Ok tt, w).
Proof.
  intros H. unfold dump_interval_batch. rewrite run_bind.
  unfold get_self. rewrite H. reflexivity.
Qed.


End OutputFiles.

(** ** Names of the temporary files and of the output file *)

Section FileNames.
Import ExtractLiterary.
Local Open Scope Z_scope.
















End FileNames.

(** ** Batch mode *)

Section BatchMode.
Import ExtractLiterary.
Local Open Scope Z_scope.

Variable o0 : OutputManager.
Variable fs0 : gmap (list N) (list N).










End BatchMode.

(** ** Reading a text file back *)

Section UniversalNewlines.
Import ExtractLiterary.

Example universal_newlines_examples :
  universal_newlines (py "a" ++ [13; 10]%N ++ py "b" ++ [13]%N ++ py "c"
                      ++ [10; 13]%N ++ py "d" ++ [13]%N)
  = py "a" ++ [NL] ++ py "b" ++ [NL] ++ py "c" ++ [NL; NL] ++ py "d" ++ [NL]
  /\ universal_newlines (py "ab" ++ [NL] ++ py "cd") = py "ab" ++ [NL] ++ py "cd".
Proof. split; vm_compute; reflexivity. Qed.


















End UniversalNewlines.

(** ** The final merge *)

Section Merge.
Import ExtractLiterary.
Local Open Scope Z_scope.




Variable o0 : OutputManager.
Variable fs0 : gmap (list N) (list N).


End Merge.

Section MergeResult.
Import ExtractLiterary.
Local Open Scope Z_scope.

Variable o0 : OutputManager.
Variable fs0 : gmap (list N) (list N).



End MergeResult.

Section Ascending.
Import ExtractLiterary.
Local Open Scope Z_scope.






End Ascending.

(** ** The aggregation of a run *)

Section Aggregate.
Import ExtractLiterary.
Local Open Scope Z_scope.






End Aggregate.

(** ** Append mode, and the two modes compared *)

Section AppendMode.
Import ExtractLiterary.
Local Open Scope Z_scope.






Variable o0 : OutputManager.
Variable fs0 : gmap (list N) (list N).


End AppendMode.

(** ** The driver *)

Section Driver.
Import ExtractLiterary.
Local Open Scope Z_scope.



End Driver.

(** ** The two modes on one document *)

Section Documents.
Import ExtractLiterary.
Local Open Scope Z_scope.

Lemma handle_results_empty (storage_mode : str) (d : Z) (page_range : str)
    (rs : list (Z * str)) (pp : Z) (w : world) :
  Forall (fun r => r.2 = []) rs ->
  current_batch (self w) = [] ->
  (handle_results storage_mode d page_range pp rs w).2 = w.
Proof.
  intros Hall Hcb. revert pp.
  induction Hall as [|[page text] rs Ht _ IH]; intros pp; [reflexivity|].
  cbn [snd] in Ht. subst text.
  cbn [handle_results]. rewrite run_bind. unfold handle_result.
  destruct (str_eqb storage_mode (py "batch")).
  - rewrite run_bind. unfold add_content. cbn [truthy].
    unfold ret at 1, mret at 1, M_ret at 1.
    rewrite run_bind. unfold py_mod.
    destruct (d =? 0); [reflexivity|].
    unfold ret at 1, mret at 1, M_ret at 1.
    rewrite run_bind.
    destruct ((pp + 1) mod d =? 0).
    + rewrite dump_interval_batch_nil by exact Hcb.
      unfold ret at 1, mret at 1, M_ret at 1. apply IH.
    + unfold ret at 1 2, mret at 1 2, M_ret at 1 2. apply IH.
  - rewrite run_bind. unfold append_to_file. cbn [truthy negb].
    unfold ret at 1 2, mret at 1 2, M_ret at 1 2. apply IH.
Qed.

Lemma aggregate_empty (storage_mode : str) (d : Z) (page_range : str)
    (rs : list (Z * str)) (w : world) :
  Forall (fun r => r.2 = []) rs ->
  current_batch (self w) = [] -> temp_files (self w) = [] ->
  (aggregate storage_mode d page_range rs w).2 = w.
Proof.
  intros Hall Hcb Htf. unfold aggregate. rewrite run_bind.
  pose proof (handle_results_empty storage_mode d page_range rs 0 w Hall Hcb)
    as H.
  destruct (handle_results storage_mode d page_range 0 rs w) as [[pp|e] w1];
    cbn [snd] in H; subst w1; [|reflexivity].
  unfold finish. destruct (str_eqb storage_mode (py "batch")); [|reflexivity].
  unfold merge_and_cleanup. rewrite run_bind. unfold get_self.
  rewrite Hcb, Htf. reflexivity.
Qed.

Lemma driver_results_empty (page_file_map : gmap Z (list N))
    (extract : str -> str) (a b : Z) :
  (forall p c, page_file_map !! p = Some c -> extract c = []) ->
  Forall (fun r => r.2 = []) (driver_results page_file_map extract a b).
Proof.
  intros H. apply Forall_forall. intros [q t] Hq.
  apply list_elem_of_omap in Hq as (x & _ & Hq).
  destruct (page_file_map !! x) as [c|] eqn:E; [|discriminate].
  cbn [mbind option_bind] in Hq. injection Hq as <- <-.
  cbn [snd]. eapply H; eauto.
Qed.

(** C10: when every extraction result of a run is the empty string, the run
    leaves the files as they were, in append mode and in batch mode (and
    whatever the flush interval): no output file is created. *)
Theorem C10_all_empty (start_page end_page : option Z) (storage_mode : str)
    (dump_interval : Z) (output_dir pdf_dir : str) (total_pages : Z)
    (page_file_map : gmap Z (list N)) (extract : str -> str)
    (fs0 : gmap (list N) (list N)) :
  (forall p c, page_file_map !! p = Some c -> extract c = []) ->
  (process_document start_page end_page storage_mode dump_interval output_dir
     pdf_dir total_pages page_file_map extract fs0).2 = fs0.
Proof.
  intros H. unfold process_document.
  destruct (resolve start_page end_page total_pages) as [a b|a b];
    [|reflexivity].
  pose proof (aggregate_empty storage_mode dump_interval
                (py "_pages_" ++ str_of_int a ++ py "-" ++ str_of_int b)
                (driver_results page_file_map extract a b)
                (World (new_OutputManager output_dir pdf_dir dump_interval) fs0)
                (driver_results_empty page_file_map extract a b H)
                eq_refl eq_refl) as Hagg.
  destruct (aggregate _ _ _ _ _) as [r w]. cbn [snd] in *. subst w.
  reflexivity.
Qed.

(** The runs of C10 on a document of three pages whose results are all empty. *)
Lemma C10_all_empty_witness :
  (process_document (Some 1) None (py "batch") 2 (py "output") (py "book") 3
     {[ 1 := py "one"; 2 := py "two"; 3 := py "three" ]} (fun _ => []) ∅).2
  = ∅
  /\ (process_document (Some 1) None (py "append") 2 (py "output") (py "book") 3
        {[ 1 := py "one"; 2 := py "two"; 3 := py "three" ]} (fun _ => []) ∅).2
     = ∅.
Proof.
  split.
  - apply (C10_all_empty (Some 1) None (py "batch") 2 (py "output") (py "book")
             3 {[ 1 := py "one"; 2 := py "two"; 3 := py "three" ]}
             (fun _ => []) ∅).
    intros p c _. reflexivity.
  - apply (C10_all_empty (Some 1) None (py "append") 2 (py "output")
             (py "book") 3 {[ 1 := py "one"; 2 := py "two"; 3 := py "three" ]}
             (fun _ => []) ∅).
    intros p c _. reflexivity.
Defined.




End Documents.

(** * Further properties of the code *)

(** ** More on split_content *)

Section SplitParagraphs.

Lemma split_nl_single (p : str) : nl_free p -> split_nl p = [p].
Proof.
  unfold nl_free. induction p as [|c p IH]; intros H; [reflexivity|].
  simpl in *. destruct (N.eqb_spec c NL) as [|Hc]; [discriminate|].
  rewrite IH by exact H. reflexivity.
Qed.

Lemma split_nl_app_nl (p s : str) :
  nl_free p -> split_nl (p ++ NL :: s) = p :: split_nl s.
Proof.
  unfold nl_free. induction p as [|c p IH]; intros H; [reflexivity|].
  simpl in *. destruct (N.eqb_spec c NL) as [|Hc]; [discriminate|].
  rewrite IH by exact H. reflexivity.
Qed.

Lemma split_join_nl (ps : list str) :
  Forall nl_free ps -> ps <> [] -> split_nl (join_nl ps) = ps.
Proof.
  induction ps as [|p ps IH]; intros Hf Hne; [congruence|].
  inversion Hf as [|? ? Hp Hps]; subst.
  destruct ps as [|q ps].
  - apply split_nl_single. exact Hp.
  - rewrite join_nl_cons by discriminate.
    rewrite split_nl_app_nl by exact Hp.
    rewrite IH by (assumption || discriminate). reflexivity.
Qed.

Lemma split_loop_paragraphs (chunk_size : Z) (paras : list str)
    (st : split_state) :
  Forall nl_free (current_chunk st) -> Forall nl_free paras ->
  concat (map split_nl (split_result (fold_left (split_step chunk_size) paras st)))
  = concat (map split_nl (chunks st)) ++ current_chunk st ++ paras.
Proof.
  revert st. induction paras as [|para paras IH]; intros st Hcc Hps.
  - simpl. rewrite app_nil_r. unfold split_result.
    destruct (current_chunk st) as [|p cc] eqn:E;
      [rewrite app_nil_r; reflexivity|].
    simpl truthy. cbv iota. rewrite map_app, concat_app. simpl.
    rewrite app_nil_r.
    change (split_nl match cc with [] => p | _ :: _ => p ++ NL :: join_nl cc end)
      with (split_nl (join_nl (p :: cc))).
    rewrite split_join_nl by (assumption || discriminate). reflexivity.
  - inversion Hps as [|? ? Hp Hps']; subst. simpl fold_left. rewrite IH.
    + unfold split_step.
      destruct ((current_size st + len para >? chunk_size)%Z
                && truthy (current_chunk st)) eqn:E; simpl.
      * apply andb_true_iff in E as [_ E].
        rewrite map_app, concat_app. simpl. rewrite app_nil_r.
        rewrite split_join_nl
          by (try assumption; destruct (current_chunk st); discriminate).
        rewrite <- app_assoc. reflexivity.
      * rewrite <- app_assoc. reflexivity.
    + unfold split_step.
      destruct ((current_size st + len para >? chunk_size)%Z
                && truthy (current_chunk st)); simpl.
      * constructor; [assumption|constructor].
      * apply Forall_app. split; [assumption|]. constructor; [assumption|constructor].
    + assumption.
Qed.

Lemma split_content_concat (T : str) (S : Z) :
  concat (map split_nl (split_content T S)) = split_nl T.
Proof.
  unfold split_content.
  change (concat (map split_nl (split_result
            (fold_left (split_step S) (split_nl T)
               {| chunks := []; current_chunk := []; current_size := 0 |})))
          = split_nl T).
  rewrite split_loop_paragraphs; [reflexivity|constructor|apply split_nl_free].
Qed.

(** X1: [split_content] never cuts inside a paragraph and keeps the
    paragraphs in order: the paragraphs of the chunks, one chunk after the
    other, are the paragraphs of the text. *)
Theorem split_content_paragraphs (T : str) (S : Z) :
  concat (map split_nl (split_content T S)) = split_nl T.
Proof. exact (split_content_concat T S). Qed.

Lemma paragraphs_size_nonneg (l : list str) : (0 <= paragraphs_size l)%Z.
Proof.
  induction l as [|p l IH]; simpl; [lia|]. pose proof (len_nonneg p). lia.
Qed.

Lemma split_loop_fits (chunk_size : Z) (paras : list str) (st : split_state) :
  current_size st = paragraphs_size (current_chunk st) ->
  (paragraphs_size (current_chunk st) + paragraphs_size paras <= chunk_size)%Z ->
  fold_left (split_step chunk_size) paras st
  = {| chunks := chunks st;
       current_chunk := current_chunk st ++ paras;
       current_size := (current_size st + paragraphs_size paras)%Z |}.
Proof.
  revert st. induction paras as [|para paras IH]; intros st Hs Hfit.
  - simpl. rewrite app_nil_r, Z.add_0_r. destruct st; reflexivity.
  - simpl fold_left. simpl paragraphs_size in *.
    pose proof (paragraphs_size_nonneg paras).
    assert (E : split_step chunk_size st para
                = {| chunks := chunks st;
                     current_chunk := current_chunk st ++ [para];
                     current_size := (current_size st + len para)%Z |}).
    { unfold split_step.
      destruct (Z.gtb_spec (current_size st + len para) chunk_size);
        [lia|reflexivity]. }
    rewrite E, IH; simpl.
    + rewrite <- app_assoc. f_equal. lia.
    + rewrite paragraphs_size_app. simpl. lia.
    + rewrite paragraphs_size_app. simpl. lia.
Qed.

(** X2: a text that fits, its length not counting its newlines being at most
    the target size, comes back as a single chunk, the text itself. *)
Theorem split_content_fits (T : str) (S : Z) :
  (len T - count_nl T <= S)%Z -> split_content T S = [T].
Proof.
  intros Hfit.
  pose proof (split_nl_nonempty T) as Hne.
  destruct (join_nl_measure (split_nl T) (split_nl_free T) Hne) as [Hl Hc].
  rewrite join_split_nl in Hl, Hc.
  unfold split_content. rewrite split_loop_fits; simpl; [| reflexivity | lia].
  destruct (split_nl T) eqn:E; [congruence|]. simpl truthy. cbv iota.
  rewrite <- E, join_split_nl. reflexivity.
Qed.

(** The bound of [split_content_fits] on a text of two paragraphs. *)
Lemma split_content_fits_witness :
  split_content (py "ab" ++ NL :: py "cd") 4 = [py "ab" ++ NL :: py "cd"].
Proof.
  apply (split_content_fits (py "ab" ++ NL :: py "cd") 4).
  vm_compute. discriminate.
Defined.

(** X3: [split_content] never returns the empty list; the empty text gives
    one empty chunk, whatever the target size. *)
Theorem split_content_never_empty (T : str) (S : Z) :
  split_content T S <> []
  /\ (T = [] -> split_content T S = [[]]).
Proof.
  split.
  - intros E. pose proof (split_content_concat T S) as H.
    rewrite E in H. simpl in H. symmetry in H.
    revert H. apply split_nl_nonempty.
  - intros ->. unfold split_content. simpl. unfold split_step. simpl.
    rewrite andb_false_r. reflexivity.
Qed.

End SplitParagraphs.

Section SplitGreedy.

Variable chunk_size : Z.

Lemma adjacent_snoc {A} (R : A -> A -> Prop) (l : list A) (x : A) :
  (forall i a b, l !! i = Some a -> l !! S i = Some b -> R a b) ->
  (forall a, last l = Some a -> R a x) ->
  forall i a b, (l ++ [x]) !! i = Some a -> (l ++ [x]) !! S i = Some b -> R a b.
Proof.
  intros Hadj Hlast i a b Ha Hb.
  pose proof (lookup_lt_Some _ _ _ Hb) as Hlen. rewrite length_app in Hlen.
  simpl in Hlen.
  destruct (decide (S i < length l)) as [Hi|Hi].
  - rewrite lookup_app_l in Ha, Hb by lia. eapply Hadj; eauto.
  - assert (Hi' : S i = length l) by lia.
    rewrite lookup_app_l in Ha by lia.
    rewrite lookup_app_r in Hb by lia.
    replace (S i - length l)%nat with 0%nat in Hb by lia.
    simpl in Hb. injection Hb as <-.
    apply Hlast. rewrite last_lookup, <- Hi'. exact Ha.
Qed.

Lemma join_nl_first (l : list str) (p : str) :
  Forall nl_free l -> head l = Some p -> first_item (split_nl (join_nl l)) = p.
Proof.
  intros Hf Hp. destruct l as [|q l]; [discriminate|].
  rewrite split_join_nl by (assumption || discriminate).
  simpl in *. congruence.
Qed.

Lemma join_nl_size (l : list str) :
  Forall nl_free l -> l <> [] ->
  (len (join_nl l) - count_nl (join_nl l))%Z = paragraphs_size l.
Proof.
  intros Hf Hne. destruct (join_nl_measure l Hf Hne) as [-> ->]. lia.
Qed.

Lemma greedy_closed (st : split_state) :
  greedy_inv chunk_size st -> current_chunk st <> [] ->
  forall i c1 c2,
    (chunks st ++ [join_nl (current_chunk st)]) !! i = Some c1 ->
    (chunks st ++ [join_nl (current_chunk st)]) !! S i = Some c2 ->
    greedy_cut chunk_size c1 c2.
Proof.
  intros [Hf Hs Hadj Hlast Hstart] Hne. apply adjacent_snoc; [exact Hadj|].
  intros c Hc. unfold greedy_cut.
  destruct (current_chunk st) as [|p cc] eqn:E; [congruence|].
  rewrite (join_nl_first (p :: cc) p) by (assumption || reflexivity).
  apply Hlast; [exact Hc|reflexivity].
Qed.

Lemma greedy_step (st : split_state) (para : str) :
  greedy_inv chunk_size st -> nl_free para ->
  greedy_inv chunk_size (split_step chunk_size st para).
Proof.
  intros Hinv Hp. pose proof Hinv as [Hf Hs Hadj Hlast Hstart].
  unfold split_step.
  destruct ((current_size st + len para >? chunk_size)%Z
            && truthy (current_chunk st)) eqn:E.
  - apply andb_true_iff in E as [Hgt Hne]. apply Z.gtb_lt in Hgt.
    assert (Hne' : current_chunk st <> [])
      by (destruct (current_chunk st); discriminate).
    constructor; simpl.
    + constructor; [assumption|constructor].
    + lia.
    + apply greedy_closed; assumption.
    + intros c p Hc Hhd. rewrite last_snoc in Hc.
      injection Hc as <-. injection Hhd as <-.
      rewrite join_nl_size by assumption. lia.
    + discriminate.
  - constructor; simpl.
    + apply Forall_app. split; [assumption|]. constructor; [assumption|constructor].
    + rewrite paragraphs_size_app. simpl. lia.
    + exact Hadj.
    + intros c p Hc Hhd.
      destruct (current_chunk st) as [|q cc] eqn:Ecc.
      * rewrite (Hstart eq_refl) in Hc. discriminate.
      * simpl in Hhd. apply Hlast; [exact Hc|exact Hhd].
    + intros H. destruct (current_chunk st); discriminate.
Qed.

Lemma greedy_loop (paras : list str) (st : split_state) :
  greedy_inv chunk_size st -> Forall nl_free paras ->
  greedy_inv chunk_size (fold_left (split_step chunk_size) paras st).
Proof.
  revert st. induction paras as [|para paras IH]; intros st Hst Hf; [assumption|].
  inversion Hf; subst. simpl. apply IH; [|assumption].
  apply greedy_step; assumption.
Qed.

End SplitGreedy.

(** X4: the chunks are cut greedily.  For two consecutive chunks of
    [split_content T S], the first paragraph of the second chunk did not fit
    into the first one: their lengths, newlines of the first chunk not
    counted, exceed [S] together. *)
Theorem split_content_greedy (T : str) (S : Z) (i : nat) (c1 c2 : str) :
  split_content T S !! i = Some c1 ->
  split_content T S !! Datatypes.S i = Some c2 ->
  (len c1 - count_nl c1 + len (first_item (split_nl c2)) > S)%Z.
Proof.
  unfold split_content.
  set (st := fold_left (split_step S) (split_nl T)
               {| chunks := []; current_chunk := []; current_size := 0 |}).
  assert (Hinv : greedy_inv S st).
  { apply greedy_loop; [|apply split_nl_free].
    constructor; simpl; try (constructor || reflexivity || discriminate). }
  destruct (current_chunk st) as [|p cc] eqn:E; simpl truthy; cbv iota.
  - rewrite (g_start S st Hinv E). intros H. rewrite lookup_nil in H. discriminate.
  - rewrite <- E. apply (greedy_closed S st Hinv). congruence.
Qed.

(** The greedy cut at the text "ab", "cd", "ef" with target size 4. *)
Lemma split_content_greedy_witness :
  (len (py "ab" ++ NL :: py "cd") - count_nl (py "ab" ++ NL :: py "cd")
   + len (first_item (split_nl (py "ef"))) > 4)%Z.
Proof.
  apply (split_content_greedy (py "ab" ++ NL :: py "cd" ++ NL :: py "ef") 4 0
           (py "ab" ++ NL :: py "cd") (py "ef")); reflexivity.
Defined.

(** ** More on strip and the collected texts *)

Section Strip.

Lemma lstrip_decompose (s : str) :
  exists w, s = w ++ lstrip s /\ forallb isspace w = true.
Proof.
  induction s as [|c s (w & Hw & Hsp)].
  - exists []. split; reflexivity.
  - simpl. destruct (isspace c) eqn:E.
    + exists (c :: w). simpl. rewrite E, Hsp. split; [congruence|reflexivity].
    + exists []. split; reflexivity.
Qed.

Lemma lstrip_head (s : str) (c : N) (r : str) :
  lstrip s = c :: r -> isspace c = false.
Proof.
  induction s as [|x s IH]; simpl; [discriminate|].
  destruct (isspace x) eqn:E; [exact IH|].
  intros H. injection H as <- _. exact E.
Qed.

Lemma lstrip_fixed (s : str) :
  (forall c r, s = c :: r -> isspace c = false) -> lstrip s = s.
Proof.
  destruct s as [|c s]; intros H; [reflexivity|].
  simpl. rewrite (H c s eq_refl). reflexivity.
Qed.

(** [strip s] is a part of [s] between white space, and neither begins nor
    ends with white space. *)
Lemma strip_decompose (s : str) :
  exists w1 w2,
    s = w1 ++ strip s ++ w2
    /\ forallb isspace w1 = true /\ forallb isspace w2 = true
    /\ (forall c r, strip s = c :: r -> isspace c = false)
    /\ (forall c r, rev (strip s) = c :: r -> isspace c = false).
Proof.
  unfold strip.
  destruct (lstrip_decompose s) as (w1 & Hs & Hw1).
  destruct (lstrip_decompose (rev (lstrip s))) as (w & Hu & Hw).
  set (v := lstrip (rev (lstrip s))) in *.
  assert (Hu' : lstrip s = rev v ++ rev w).
  { rewrite <- (rev_involutive (lstrip s)), Hu, rev_app_distr. reflexivity. }
  exists w1, (rev w). split; [|split; [|split; [|split]]].
  - rewrite <- Hu'. exact Hs.
  - exact Hw1.
  - rewrite forallb_forall in *. intros x Hx. apply Hw.
    apply in_rev. exact Hx.
  - intros c r E. rewrite E in Hu'. simpl in Hu'.
    eapply lstrip_head. exact Hu'.
  - rewrite rev_involutive. intros c r E. eapply lstrip_head. exact E.
Qed.

Lemma strip_fixed (s : str) :
  (forall c r, s = c :: r -> isspace c = false) ->
  (forall c r, rev s = c :: r -> isspace c = false) ->
  strip s = s.
Proof.
  intros H1 H2. unfold strip.
  rewrite (lstrip_fixed s H1), (lstrip_fixed (rev s) H2).
  apply rev_involutive.
Qed.

Lemma last_char_rev (s : str) (c : N) (r : str) :
  rev s = c :: r -> last_char s = c.
Proof.
  intros E. rewrite <- (rev_involutive s), E. simpl.
  unfold last_char. apply List.last_last.
Qed.

Lemma nl_isspace : isspace NL = true.
Proof. reflexivity. Qed.

Lemma split_nl_first_nonempty (s : str) (c : N) (r : str) :
  s = c :: r -> c <> NL -> first_item (split_nl s) <> [].
Proof.
  intros -> Hc. simpl. destruct (N.eqb_spec c NL); [contradiction|].
  destruct (split_nl r); discriminate.
Qed.

Lemma split_nl_last_nonempty (s : str) :
  s <> [] -> last_char s <> NL -> last_item (split_nl s) <> [].
Proof.
  induction s as [|c s IH]; intros Hne Hlast; [congruence|].
  destruct s as [|d s].
  - simpl. unfold last_char in Hlast. simpl in Hlast.
    destruct (N.eqb_spec c NL); [contradiction|discriminate].
  - assert (IH' : last_item (split_nl (d :: s)) <> []).
    { apply IH; [discriminate|]. exact Hlast. }
    pose proof (split_nl_nonempty (d :: s)) as Hs.
    change (split_nl (c :: d :: s))
      with (if (c =? NL)%N then [] :: split_nl (d :: s)
            else match split_nl (d :: s) with
                 | [] => [[c]]
                 | p :: ps => (c :: p) :: ps
                 end).
    destruct (split_nl (d :: s)) as [|p ps]; [congruence|].
    destruct (c =? NL)%N.
    + exact IH'.
    + destruct ps as [|q ps]; [discriminate|exact IH'].
Qed.

End Strip.

(** X5: every text that the first pass of [parse_pdf] collects is free of
    white space at both ends (stripping it again changes nothing), a page
    whose reading fails is collected as the empty text, and a collected text
    that is not empty has a non-empty first paragraph and a non-empty last
    paragraph: what the second pass copies from a non-empty neighbour is
    never empty. *)
Theorem collect_texts_stripped (doc : list (option str)) (i : nat) (t : str) :
  collect_texts doc !! i = Some t ->
  strip t = t
  /\ (doc !! i = Some None -> t = [])
  /\ (t <> [] ->
      isspace (hd 0%N t) = false /\ isspace (last_char t) = false
      /\ first_item (split_nl t) <> [] /\ last_item (split_nl t) <> []).
Proof.
  intros Ht. unfold collect_texts in Ht. rewrite list_lookup_fmap in Ht.
  destruct (doc !! i) as [[text|]|] eqn:E; simpl in Ht; try discriminate;
    injection Ht as <-.
  - destruct (strip_decompose text) as (w1 & w2 & _ & _ & _ & Hh & Hl).
    split; [apply strip_fixed; assumption|].
    split; [discriminate|].
    intros Hne.
    destruct (strip text) as [|c r] eqn:Es; [congruence|].
    assert (Hc : isspace c = false) by (eapply Hh; reflexivity).
    destruct (rev (c :: r)) as [|d r'] eqn:Er.
    { apply (f_equal (@length _)) in Er. rewrite length_rev in Er.
      discriminate. }
    assert (Hd : isspace d = false) by (eapply Hl; reflexivity).
    rewrite (last_char_rev _ _ _ Er).
    split; [exact Hc|]. split; [exact Hd|]. split.
    + eapply split_nl_first_nonempty; [reflexivity|].
      intros ->. rewrite nl_isspace in Hc. discriminate.
    + apply split_nl_last_nonempty; [discriminate|].
      rewrite (last_char_rev _ _ _ Er).
      intros ->. rewrite nl_isspace in Hd. discriminate.
  - split; [reflexivity|]. split; [reflexivity|congruence].
Qed.

(** The texts collected from a document with a padded page and a failed
    page. *)
Lemma collect_texts_stripped_witness :
  strip (py "ab") = py "ab".
Proof.
  exact (proj1 (collect_texts_stripped
                  [Some (32%N :: py "ab" ++ [NL]); None] 0 (py "ab") eq_refl)).
Defined.

(** ** More on the reconciliation pass *)

Section ReconcileShape.

Lemma last_item_free (s : str) : nl_free (last_item (split_nl s)).
Proof.
  pose proof (split_nl_free s) as H. unfold last_item.
  induction H as [|p l Hp Hl IH]; [reflexivity|].
  destruct l; [exact Hp|exact IH].
Qed.

Lemma first_item_free (s : str) : nl_free (first_item (split_nl s)).
Proof.
  pose proof (split_nl_free s) as H. unfold first_item.
  destruct H; [reflexivity|assumption].
Qed.

Lemma prepend_step_shape (all_pages_text : list str) (i : nat) (t : str) :
  (i < length all_pages_text)%nat ->
  exists pre,
    prepend_step all_pages_text i t = Some (pre ++ t)
    /\ (pre = []
        \/ ((0 < i)%nat
            /\ exists prev, all_pages_text !! (i - 1)%nat = Some prev
                            /\ prev <> [] /\ ends_terminal prev = false
                            /\ pre = last_item (split_nl prev))).
Proof.
  intros Hi. unfold prepend_step.
  destruct ((0 <? i)%nat && truthy t) eqn:E;
    [|exists []; split; [reflexivity|left; reflexivity]].
  apply andb_true_iff in E as [Hpos _]. apply Nat.ltb_lt in Hpos.
  destruct (lookup_lt_is_Some_2 all_pages_text (i - 1) ltac:(lia))
    as [prev Hprev].
  rewrite Hprev. cbn [mbind option_bind].
  destruct (truthy prev) eqn:Hp;
    [|exists []; split; [reflexivity|left; reflexivity]].
  cbn [andb]. fold (ends_terminal prev).
  destruct (ends_terminal prev) eqn:Ht; cbn [negb];
    [exists []; split; [reflexivity|left; reflexivity]|].
  rewrite (truthy_ne _ (split_nl_nonempty prev)).
  destruct (last_item (split_nl prev)) as [|c lp] eqn:El;
    [exists []; split; [reflexivity|left; reflexivity]|].
  exists (c :: lp). split; [reflexivity|]. right. split; [exact Hpos|].
  exists prev. repeat split; try assumption; try congruence.
  destruct prev; [discriminate|discriminate].
Qed.

Lemma append_step_shape (all_pages_text : list str) (i : nat) (cur : str) :
  (i < length all_pages_text)%nat ->
  exists suf,
    append_step all_pages_text (length all_pages_text) i cur = Some (cur ++ suf)
    /\ (suf = []
        \/ exists next, all_pages_text !! (i + 1)%nat = Some next
                        /\ next <> [] /\ cur <> []
                        /\ ends_terminal cur = false
                        /\ suf = first_item (split_nl next)).
Proof.
  intros Hi. unfold append_step.
  destruct ((Z.of_nat i <? Z.of_nat (length all_pages_text) - 1)%Z
            && truthy cur) eqn:E;
    [|exists []; rewrite app_nil_r; split; [reflexivity|left; reflexivity]].
  apply andb_true_iff in E as [Hlt Hcur]. apply Z.ltb_lt in Hlt.
  destruct (lookup_lt_is_Some_2 all_pages_text (i + 1) ltac:(lia))
    as [next Hnext].
  rewrite Hnext. cbn [mbind option_bind].
  destruct (truthy next) eqn:Hn;
    [|exists []; rewrite app_nil_r; split; [reflexivity|left; reflexivity]].
  rewrite Hcur. cbn [andb]. fold (ends_terminal cur).
  destruct (ends_terminal cur) eqn:Ht; cbn [negb];
    [exists []; rewrite app_nil_r; split; [reflexivity|left; reflexivity]|].
  rewrite (truthy_ne _ (split_nl_nonempty next)).
  destruct (first_item (split_nl next)) as [|c fp] eqn:Ef;
    [exists []; rewrite app_nil_r; split; [reflexivity|left; reflexivity]|].
  exists (c :: fp). split; [reflexivity|]. right.
  exists next. repeat split; try assumption; try congruence.
  - destruct next; discriminate.
  - destruct cur; discriminate.
Qed.

End ReconcileShape.

(** X6: the text computation of the second pass never raises for a page of
    the document, and it only adds to a page: the corrected text is the
    page's own text, unchanged, between at most one paragraph taken from the
    end of the previous page's raw text and at most one paragraph taken from
    the beginning of the next page's raw text. *)
Theorem reconcile_page_keeps_text (all_pages_text : list str) (i : nat)
    (t : str) :
  all_pages_text !! i = Some t ->
  exists pre suf,
    reconcile_page all_pages_text (length all_pages_text) i
    = Some (pre ++ t ++ suf)
    /\ nl_free pre /\ nl_free suf
    /\ (pre = []
        \/ exists prev, all_pages_text !! (i - 1)%nat = Some prev
                        /\ (0 < i)%nat /\ pre = last_item (split_nl prev))
    /\ (suf = []
        \/ exists next, all_pages_text !! (i + 1)%nat = Some next
                        /\ suf = first_item (split_nl next)).
Proof.
  intros Ht. pose proof (lookup_lt_Some _ _ _ Ht) as Hi.
  destruct (prepend_step_shape all_pages_text i t Hi) as (pre & Hpre & Hp).
  destruct (append_step_shape all_pages_text i (pre ++ t) Hi)
    as (suf & Hsuf & Hs).
  exists pre, suf. unfold reconcile_page. rewrite Ht. cbn [mbind option_bind].
  rewrite Hpre. cbn [mbind option_bind]. rewrite Hsuf, <- app_assoc.
  split; [reflexivity|].
  split; [destruct Hp as [->|(_ & prev & _ & _ & _ & ->)];
          [reflexivity|apply last_item_free]|].
  split; [destruct Hs as [->|(next & _ & _ & _ & _ & ->)];
          [reflexivity|apply first_item_free]|].
  split.
  - destruct Hp as [->|(Hpos & prev & Hprev & _ & _ & ->)]; [left; reflexivity|].
    right. exists prev. auto.
  - destruct Hs as [->|(next & Hnext & _ & _ & _ & ->)]; [left; reflexivity|].
    right. exists next. auto.
Qed.

(** The corrected text of the middle page of "a", "b", "c". *)
Lemma reconcile_page_keeps_text_witness :
  exists pre suf,
    reconcile_page [py "a"; py "b"; py "c"] 3 1 = Some (pre ++ py "b" ++ suf).
Proof.
  destruct (reconcile_page_keeps_text [py "a"; py "b"; py "c"] 1 (py "b")
              eq_refl) as (pre & suf & H & _).
  exists pre, suf. exact H.
Defined.

(** X7: the append step.  When the text of a page after the prepend step is
    not empty and does not end in one of 。！？.!?, and the next page's raw
    text is not empty, the corrected text of the page is that text followed
    by the first paragraph of the next page's raw text. *)
Theorem reconcile_page_appends (all_pages_text : list str) (i : nat)
    (t cur next : str) :
  all_pages_text !! i = Some t ->
  prepend_step all_pages_text i t = Some cur ->
  cur <> [] ->
  ends_terminal cur = false ->
  all_pages_text !! (i + 1)%nat = Some next ->
  next <> [] ->
  reconcile_page all_pages_text (length all_pages_text) i
  = Some (cur ++ first_item (split_nl next)).
Proof.
  intros Ht Hpre Hcur Hterm Hnext Hne.
  pose proof (lookup_lt_Some _ _ _ Hnext) as Hi.
  unfold reconcile_page. rewrite Ht. cbn [mbind option_bind].
  rewrite Hpre. cbn [mbind option_bind]. unfold append_step.
  rewrite (proj2 (Z.ltb_lt (Z.of_nat i) (Z.of_nat (length all_pages_text) - 1)))
    by lia.
  rewrite (truthy_ne _ Hcur). cbn [andb]. rewrite Hnext.
  cbn [mbind option_bind]. rewrite (truthy_ne _ Hne).
  fold (ends_terminal cur). rewrite Hterm. cbn [negb].
  rewrite (truthy_ne _ (split_nl_nonempty next)).
  destruct (first_item (split_nl next)); [rewrite app_nil_r|]; reflexivity.
Qed.

(** The append step on the first page of "花开", "了。". *)
Lemma reconcile_page_appends_witness :
  reconcile_page [py "花开"; py "了。"] 2 0 = Some (py "花开" ++ py "了。").
Proof.
  exact (reconcile_page_appends [py "花开"; py "了。"] 0 (py "花开") (py "花开")
           (py "了。") eq_refl eq_refl ltac:(discriminate) eq_refl eq_refl
           ltac:(discriminate)).
Defined.

(** X8: a boundary that needs no repair is left alone.  A page whose
    predecessor is absent (first page), empty or ends in a terminal mark,
    and which itself is last, or followed by an empty page, or ends in a
    terminal mark, keeps exactly its own text. *)
Theorem reconcile_page_unchanged (all_pages_text : list str) (i : nat)
    (t : str) :
  all_pages_text !! i = Some t ->
  (i = 0%nat
   \/ exists prev, all_pages_text !! (i - 1)%nat = Some prev
                   /\ (prev = [] \/ ends_terminal prev = true)) ->
  (S i = length all_pages_text
   \/ ends_terminal t = true
   \/ all_pages_text !! (i + 1)%nat = Some []) ->
  reconcile_page all_pages_text (length all_pages_text) i = Some t.
Proof.
  intros Ht Hprev Hnext.
  pose proof (lookup_lt_Some _ _ _ Ht) as Hi.
  destruct (prepend_step_shape all_pages_text i t Hi) as (pre & Hpre & Hp).
  assert (Hpre0 : pre = []).
  { destruct Hp as [->|(Hpos & prev & Hpv & Hne & Hterm & _)]; [reflexivity|].
    destruct Hprev as [->|(prev' & Hpv' & Hc)]; [lia|].
    rewrite Hpv in Hpv'. injection Hpv' as <-.
    destruct Hc as [->|Hc]; congruence. }
  subst pre. simpl in Hpre.
  destruct (append_step_shape all_pages_text i t Hi) as (suf & Hsuf & Hs).
  assert (Hsuf0 : suf = []).
  { destruct Hs as [->|(next & Hnx & Hne & _ & Hterm & _)]; [reflexivity|].
    destruct Hnext as [Hlast|[Hc|Hc]].
    - apply lookup_lt_Some in Hnx. lia.
    - congruence.
    - rewrite Hnx in Hc. congruence. }
  subst suf. rewrite app_nil_r in Hsuf.
  unfold reconcile_page. rewrite Ht. cbn [mbind option_bind].
  rewrite Hpre. cbn [mbind option_bind]. exact Hsuf.
Qed.

(** A page between an empty page and the end of the document. *)
Lemma reconcile_page_unchanged_witness :
  reconcile_page [py "ab"; []; py "cd"] 3 2 = Some (py "cd").
Proof.
  apply (reconcile_page_unchanged [py "ab"; []; py "cd"] 2 (py "cd") eq_refl).
  - right. exists []. split; [reflexivity|left; reflexivity].
  - left. reflexivity.
Defined.

(** X9: running [parse_pdf] again on the same document changes nothing: each
    page file is overwritten with the same record. *)
Theorem parse_pdf_idempotent (doc : list (option str)) (pdf_name output_dir : str)
    (raises : nat -> bool) (dir : gmap (list N) page_data) :
  parse_pdf doc pdf_name output_dir raises
    (parse_pdf doc pdf_name output_dir raises dir)
  = parse_pdf doc pdf_name output_dir raises dir.
Proof.
  unfold parse_pdf. apply map_eq. intros f.
  set (file := page_file (path_join output_dir pdf_name)
                 (len (str_of_int (Z.of_nat (length doc))))).
  destruct (decide (f ∈ map file (seq 0 (length doc)))) as [Hin|Hout].
  - apply list_elem_of_fmap in Hin as (i & -> & Hi).
    apply elem_of_seq in Hi. unfold file.
    rewrite !second_pass_lookup by lia. reflexivity.
  - assert (Hf : forall i, (i < length doc)%nat -> f <> file i).
    { intros i Hi ->. apply Hout. apply list_elem_of_fmap.
      exists i. split; [reflexivity|]. apply elem_of_seq. lia. }
    unfold file in Hf.
    rewrite !second_pass_other by exact Hf. reflexivity.
Qed.

(** ** More on sorted *)

Section SortedFacts.

Context {A : Type} (le : A -> A -> bool).

Lemma insert_sorted_perm (x : A) (l : list A) : insert_sorted le x l ≡ₚ x :: l.
Proof.
  induction l as [|y l IH]; simpl; [reflexivity|].
  destruct (le x y); [reflexivity|].
  rewrite IH. apply Permutation_swap.
Qed.

Lemma sorted_perm (l : list A) : sorted le l ≡ₚ l.
Proof.
  unfold sorted. induction l as [|x l IH]; simpl; [reflexivity|].
  rewrite insert_sorted_perm, IH. reflexivity.
Qed.

End SortedFacts.

Section SortedPages.
Local Open Scope Z_scope.





End SortedPages.


(** ** More on batch mode *)

Section BatchLoop.
Local Open Scope Z_scope.

Variable o0 : OutputManager.
Variable fs0 : gmap (list N) (list N).









End BatchLoop.

Section MergeAny.
Local Open Scope Z_scope.



Variable o0 : OutputManager.
Variable fs0 : gmap (list N) (list N).



End MergeAny.

Section BatchRuns.
Local Open Scope Z_scope.












End BatchRuns.

Section Callers.
Local Open Scope Z_scope.



(** X17: a page range accepted by the command line or by the window never
    fails to resolve.  For a document directory with at least one page file,
    a blank input resolves to all pages and an accepted pair [start-end] to
    [min(start, total), min(end, total)]; in particular a range that begins
    after the last page resolves to the last page alone.  On these inputs
    the range is the one the specification describes. *)
Theorem cli_range_resolves (input : option (Z * Z))
    (start_page end_page : option Z) (total_pages : Z) :
  page_range_args input = Some (start_page, end_page) ->
  1 <= total_pages ->
  exists a b,
    resolve start_page end_page total_pages = RangeOk a b
    /\ resolve_spec start_page end_page total_pages = RangeOk a b
    /\ 1 <= a <= b /\ b <= total_pages
    /\ match input with
       | None => a = 1 /\ b = total_pages
       | Some (start, end_) =>
           a = Z.min start total_pages /\ b = Z.min end_ total_pages
           /\ (total_pages < start -> a = total_pages /\ b = total_pages)
       end.
Proof.
  intros Hargs Htot. unfold page_range_args in Hargs.
  destruct input as [[start end_]|].
  - destruct ((start >? 0) && (end_ >=? start)) eqn:E; [|discriminate].
    injection Hargs as <- <-.
    apply andb_true_iff in E as [Hs He].
    apply Z.gtb_lt in Hs. apply Z.geb_le in He.
    exists (Z.min start total_pages), (Z.min end_ total_pages).
    unfold resolve, resolve_spec, clamp. cbn [default from_option]. unfold id.
    rewrite !(Z.max_r 1) by lia.
    destruct (Z.gtb_spec (Z.min start total_pages) (Z.min end_ total_pages));
      [lia|].
    repeat split; try reflexivity; lia.
  - injection Hargs as <- <-. exists 1, total_pages.
    unfold resolve, resolve_spec, clamp. cbn [default from_option]. unfold id.
    assert (H1 : Z.max 1 (Z.min 1 total_pages) = 1) by lia.
    assert (H2 : Z.max 1 (Z.min total_pages total_pages) = total_pages) by lia.
    rewrite H1, H2.
    destruct (Z.gtb_spec 1 total_pages); [lia|].
    repeat split; try reflexivity; lia.
Qed.

(** The range 50-60 on a document of 10 pages. *)
Lemma cli_range_resolves_witness :
  exists a b, resolve (Some 50) (Some 60) 10 = RangeOk a b.
Proof.
  destruct (cli_range_resolves (Some (50, 60)) (Some 50) (Some 60) 10 eq_refl
              ltac:(lia)) as (a & b & H & _).
  exists a, b. exact H.
Defined.




End Callers.

(** ** The page files of a directory *)

Section SplitOn.

Lemma split_on_single (sep : N) (s : str) :
  Forall (fun c => c <> sep) s -> split_on sep s = [s].
Proof.
  induction 1 as [|c s Hc Hs IH]; [reflexivity|].
  simpl. destruct (N.eqb_spec c sep); [contradiction|].
  rewrite IH. reflexivity.
Qed.

Lemma split_on_app (sep : N) (p s : str) :
  Forall (fun c => c <> sep) p ->
  split_on sep (p ++ sep :: s) = p :: split_on sep s.
Proof.
  induction 1 as [|c p Hc Hp IH].
  - simpl. rewrite N.eqb_refl. reflexivity.
  - simpl. destruct (N.eqb_spec c sep); [contradiction|].
    rewrite IH. reflexivity.
Qed.

Lemma digits_ascii (d : Decimal.uint) :
  Forall (fun c => ascii_isdigit c = true) (digits d).
Proof. induction d; simpl; constructor; (reflexivity || assumption). Qed.

Lemma digits_nonempty (d : Decimal.uint) : d <> Decimal.Nil -> digits d <> [].
Proof. destruct d; simpl; congruence. Qed.

Lemma uint_of_digits_digits (d : Decimal.uint) :
  uint_of_digits (digits d) = Some d.
Proof. induction d; simpl; [reflexivity|..]; rewrite IHd; reflexivity. Qed.

Lemma ascii_int_digits (d : Decimal.uint) :
  d <> Decimal.Nil -> ascii_int (digits d) = Some (Z.of_uint d).
Proof.
  intros Hd. unfold ascii_int.
  pose proof (digits_nonempty d Hd) as Hne.
  destruct (digits d) as [|c s] eqn:E; [congruence|].
  rewrite <- E, uint_of_digits_digits. reflexivity.
Qed.

Lemma endswith_app (a suffix : str) : endswith (a ++ suffix) suffix = true.
Proof.
  unfold endswith. rewrite length_app.
  replace (length a + length suffix - length suffix)%nat with (length a) by lia.
  rewrite skipn_app, Nat.sub_diag, skipn_all. simpl.
  apply andb_true_iff. split; [|apply Nat.leb_le; lia].
  induction suffix as [|c s IH]; [reflexivity|].
  simpl. rewrite N.eqb_refl. exact IH.
Qed.

End SplitOn.

Section PageNumbers.
Local Open Scope Z_scope.

Variable isdigit : N -> bool.
Variable to_int : list N -> option Z.

Hypothesis isdigit_ascii :
  forall c, (c < 128)%N -> isdigit c = ascii_isdigit c.
Hypothesis to_int_ascii :
  forall d, d <> Decimal.Nil -> to_int (digits d) = Some (Z.of_uint d).

Lemma filter_isdigit_digits (d : Decimal.uint) :
  List.filter isdigit (digits d) = digits d.
Proof.
  pose proof (digits_ascii d) as H.
  induction H as [|c s Hc Hs IH]; [reflexivity|].
  simpl. rewrite isdigit_ascii, Hc, IH; [reflexivity|].
  unfold ascii_isdigit in Hc. apply andb_true_iff in Hc as [_ Hc].
  apply N.leb_le in Hc. lia.
Qed.

Lemma digits_no_sep (sep : N) (d : Decimal.uint) :
  ascii_isdigit sep = false -> Forall (fun c => c <> sep) (digits d).
Proof.
  intros Hsep. pose proof (digits_ascii d) as H.
  eapply Forall_impl; [exact H|]. simpl. intros c Hc ->. congruence.
Qed.

(** The page number of a name [stem_digits.ext] whose stem and extension
    hold no underscore. *)
Lemma get_page_number_digits (stem ext : str) (d : Decimal.uint) :
  Forall (fun c => c <> 95%N) stem -> Forall (fun c => c <> 95%N) ext ->
  d <> Decimal.Nil ->
  get_page_number isdigit to_int (stem ++ 95%N :: digits d ++ 46%N :: ext)
  = Z.of_uint d.
Proof.
  intros Hstem Hext Hd. unfold get_page_number.
  rewrite split_on_app by exact Hstem.
  rewrite (split_on_single 95).
  - cbn [lookup list_lookup].
    rewrite split_on_app by (apply digits_no_sep; reflexivity).
    cbn [first_item hd]. rewrite filter_isdigit_digits, to_int_ascii by exact Hd.
    reflexivity.
  - apply Forall_app. split; [apply digits_no_sep; reflexivity|].
    constructor; [discriminate|exact Hext].
Qed.

Lemma get_page_number_page (width : Z) (i : nat) :
  get_page_number isdigit to_int (page_basename width i) = Z.of_nat (i + 1).
Proof.
  unfold page_basename. rewrite Nat.add_1_r.
  change (Z.of_nat (S i)) with (Zpos (Pos.of_succ_nat i)).
  cbn [str_of_int]. rewrite zfill_digits.
  set (d := Nat.iter _ Decimal.D0 (Pos.to_uint (Pos.of_succ_nat i))).
  assert (E1 : py "page_" = py "page" ++ [95%N]) by (vm_compute; reflexivity).
  assert (E2 : py ".json" = 46%N :: py "json") by (vm_compute; reflexivity).
  rewrite E1, E2, <- app_assoc. cbn [app].
  rewrite get_page_number_digits.
  - unfold Z.of_uint, d. rewrite of_uint_zeros, DecimalPos.Unsigned.of_to.
    reflexivity.
  - vm_compute. repeat constructor; discriminate.
  - vm_compute. repeat constructor; discriminate.
  - unfold d. destruct (Z.to_nat _); simpl; [|discriminate].
    apply DecimalPos.Unsigned.to_uint_nonnil.
Qed.

Lemma fold_insert_lookup {V} (key : V -> Z) (l : list V) (m : gmap Z V)
    (k : Z) (v : V) :
  NoDup (map key l) ->
  fold_left (fun m f => insert (key f) f m) l m !! k = Some v
  <-> (v ∈ l /\ key v = k) \/ ((k ∉ map key l) /\ m !! k = Some v).
Proof.
  revert m. induction l as [|a l IH]; intros m Hnd.
  - simpl. split; [intros H; right; split; [apply not_elem_of_nil|exact H]|].
    intros [[H _]|[_ H]]; [inversion H|exact H].
  - cbn [map] in Hnd. apply NoDup_cons in Hnd as [Ha Hnd].
    cbn [fold_left]. rewrite IH by exact Hnd. cbn [map]. split.
    + intros [[Hin Hk]|[Hk Hm]].
      * left. split; [right; exact Hin|exact Hk].
      * destruct (decide (key a = k)) as [E|E].
        -- rewrite E, lookup_insert_eq in Hm. injection Hm as <-.
           left. split; [left|exact E].
        -- rewrite lookup_insert_ne in Hm by exact E.
           right. split; [|exact Hm].
           apply not_elem_of_cons. split; [congruence|exact Hk].
    + intros [[Hin Hk]|[Hk Hm]].
      * apply elem_of_cons in Hin as [->|Hin].
        -- right. split; [rewrite <- Hk; exact Ha|].
           rewrite Hk. apply lookup_insert_eq.
        -- left. split; [exact Hin|exact Hk].
      * apply not_elem_of_cons in Hk as [Hka Hk].
        right. split; [exact Hk|].
        rewrite lookup_insert_ne by congruence. exact Hm.
Qed.

End PageNumbers.

Section PageDirectory.
Local Open Scope Z_scope.

Variable isdigit : N -> bool.
Variable to_int : list N -> option Z.

Hypothesis isdigit_ascii :
  forall c, (c < 128)%N -> isdigit c = ascii_isdigit c.
Hypothesis to_int_ascii :
  forall d, d <> Decimal.Nil -> to_int (digits d) = Some (Z.of_uint d).

(** X19: the page number that [process_pages] reads from the name of a page
    file written by [parse_pdf] is the number of the page, whatever the
    width of the zero padding.  ([isdigit] and [to_int] stand for the
    builtins [str.isdigit] and [int], of which only the behaviour on ASCII
    digits is used.) *)
Theorem page_number_round_trip (pdf_output_dir : str) (width : Z) (i : nat) :
  page_file pdf_output_dir width i
  = path_join pdf_output_dir (page_basename width i)
  /\ get_page_number isdigit to_int (page_basename width i) = Z.of_nat i + 1.
Proof.
  split; [reflexivity|].
  rewrite (get_page_number_page isdigit to_int isdigit_ascii to_int_ascii).
  lia.
Qed.

(** X20: a directory that holds the page files written by [parse_pdf] for a
    document of [n] pages, listed in any order, gives [process_pages] [n]
    page files and a dictionary that maps each number from 1 to [n] to the
    file of that page and no other number: no page of a range inside
    [[1, n]] is reported missing. *)
Theorem pdf_directory_pages (width : Z) (n : nat) (listing : list str) :
  listing ≡ₚ map (page_basename width) (seq 0 n) ->
  let page_files := page_files_of isdigit to_int listing in
  let page_file_map := page_file_map_of isdigit to_int page_files in
  length page_files = n
  /\ (forall i, (i < n)%nat ->
        page_file_map !! (Z.of_nat i + 1) = Some (page_basename width i))
  /\ (forall k, k < 1 \/ Z.of_nat n < k -> page_file_map !! k = None).
Proof.
  intros Hperm page_files page_file_map.
  set (key := get_page_number isdigit to_int) in *.
  assert (Hkey : forall i, key (page_basename width i) = Z.of_nat (i + 1)).
  { intros i. apply get_page_number_page; assumption. }
  assert (Hfilter : List.filter (fun f => endswith f (py ".json")) listing
                    = listing).
  { apply forallb_filter_id. apply forallb_forall. intros f Hf.
    apply list_elem_of_In in Hf. rewrite Hperm in Hf.
    apply list_elem_of_fmap in Hf as (i & -> & _).
    unfold page_basename. rewrite app_assoc. apply endswith_app. }
  assert (Hfiles : page_files ≡ₚ map (page_basename width) (seq 0 n)).
  { unfold page_files, page_files_of. rewrite Hfilter, sorted_perm.
    exact Hperm. }
  assert (Hkeys : map key page_files ≡ₚ map (fun i => Z.of_nat (i + 1)) (seq 0 n)).
  { rewrite Hfiles, map_map. apply eq_subrelation; [typeclasses eauto|].
    apply map_ext. exact Hkey. }
  assert (Hnd : NoDup (map key page_files)).
  { rewrite Hkeys. apply NoDup_fmap_2; [|apply NoDup_seq].
    intros a b H. lia. }
  split; [rewrite Hfiles, length_map, length_seq; reflexivity|].
  split.
  - intros i Hi. unfold page_file_map, page_file_map_of. fold key.
    apply (fold_insert_lookup key); [exact Hnd|]. left.
    split; [|rewrite Hkey; lia].
    rewrite Hfiles. apply list_elem_of_fmap. exists i.
    split; [reflexivity|]. apply elem_of_seq. lia.
  - intros k Hk. unfold page_file_map, page_file_map_of. fold key.
    destruct (fold_left _ page_files ∅ !! k) as [v|] eqn:E; [|reflexivity].
    exfalso. apply (fold_insert_lookup key) in E; [|exact Hnd].
    destruct E as [[Hin Hv]|[_ Hm]]; [|rewrite lookup_empty in Hm; discriminate].
    rewrite Hfiles in Hin. apply list_elem_of_fmap in Hin as (i & -> & Hi).
    apply elem_of_seq in Hi. rewrite Hkey in Hv. lia.
Qed.

End PageDirectory.

(** The round trip of [page_number_round_trip] for page 7 of a document
    with a padding of 3, on ASCII names. *)
Lemma page_number_round_trip_witness :
  get_page_number ascii_isdigit ascii_int (page_basename 3 6) = (Z.of_nat 6 + 1)%Z.
Proof.
  exact (proj2 (page_number_round_trip ascii_isdigit ascii_int
                  (fun c _ => eq_refl) ascii_int_digits (py "sep_pages/book")
                  3 6)).
Defined.

(** The directory of a document of three pages, listed out of order. *)
Lemma pdf_directory_pages_witness :
  length (page_files_of ascii_isdigit ascii_int
            [page_basename 1 2; page_basename 1 0; page_basename 1 1])
  = 3%nat.
Proof.
  refine (proj1 (pdf_directory_pages ascii_isdigit ascii_int
                   (fun c _ => eq_refl) ascii_int_digits 1 3
                   [page_basename 1 2; page_basename 1 0; page_basename 1 1]
                   _)).
  cbn [seq map].
  rewrite (Permutation_swap (page_basename 1 0) (page_basename 1 2)).
  apply perm_skip. apply Permutation_swap.
Defined.

(** ** epub_parse: cleaning and parsing *)

Example splitlines_examples :
  splitlines (py "a" ++ [13; 10]%N ++ py "b") = [py "a"; py "b"]
  /\ splitlines (py "a" ++ [10; 13]%N ++ py "b") = [py "a"; []; py "b"]
  /\ splitlines [13%N] = [[]]
  /\ splitlines (py "a" ++ [13%N]) = [py "a"]
  /\ splitlines [] = []
  /\ splitlines (py "x" ++ [11%N] ++ py "y" ++ [8232%N] ++ py "z")
     = [py "x"; py "y"; py "z"].
Proof. vm_compute. repeat split; reflexivity. Qed.

Example split_two_spaces_examples :
  split_two_spaces (py "a  b") = [py "a"; py "b"]
  /\ split_two_spaces (py "a   b") = [py "a"; py " b"]
  /\ split_two_spaces (py "    ") = [[]; []; []]
  /\ split_two_spaces [] = [[]]
  /\ split_two_spaces (py " ") = [py " "]
  /\ split_two_spaces (py "a  ") = [py "a"; []].
Proof. vm_compute. repeat split; reflexivity. Qed.

Example clean_html_content_examples :
  clean_html_content
    (py "  Title  " ++ [NL; NL] ++ py "  one   two  " ++ [13; 10]%N
     ++ py " three")
  = py "Title" ++ NL :: py "one" ++ NL :: py "two" ++ NL :: py "three"
  /\ clean_html_content (py " " ++ [NL] ++ py " " ++ [NL]) = [].
Proof. vm_compute. split; reflexivity. Qed.

Section CleanText.

Lemma lstrip_Forall (P : N -> Prop) (s : str) : Forall P s -> Forall P (lstrip s).
Proof.
  induction 1 as [|c s Hc Hs IH]; [constructor|].
  simpl. destruct (isspace c); [exact IH|constructor; assumption].
Qed.

Lemma strip_Forall (P : N -> Prop) (s : str) : Forall P s -> Forall P (strip s).
Proof.
  intros H. unfold strip. apply Forall_rev, lstrip_Forall, Forall_rev,
    lstrip_Forall. exact H.
Qed.

Lemma splitlines_from_Forall (P : N -> Prop) (n : nat) :
  (forall c, P c -> True) ->
  forall (s line : str),
    (length s <= n)%nat ->
    Forall (fun c => is_linebreak c = false) line ->
    Forall (Forall (fun c => is_linebreak c = false)) (splitlines_from line s).
Proof.
  intros _. induction n as [|n IH]; intros s line Hlen Hline.
  - destruct s; [|simpl in Hlen; lia]. simpl.
    destruct line; simpl; [constructor|constructor; [exact Hline|constructor]].
  - destruct s as [|c s]; simpl.
    { destruct line; simpl;
        [constructor|constructor; [exact Hline|constructor]]. }
    simpl in Hlen. destruct (is_linebreak c) eqn:Ec.
    + constructor; [exact Hline|].
      assert (Hs : Forall (Forall (fun c => is_linebreak c = false))
                     (splitlines_from [] s)).
      { apply IH; [lia|constructor]. }
      destruct c as [|p]; [exact Hs|].
      repeat (destruct p as [p|p|]; try exact Hs).
      destruct s as [|c' s']; [exact Hs|].
      destruct c' as [|p']; [exact Hs|].
      repeat (destruct p' as [p'|p'|]; try exact Hs).
      apply IH; [simpl in Hlen; lia|constructor].
    + apply IH; [lia|]. apply Forall_app. split; [exact Hline|].
      constructor; [exact Ec|constructor].
Qed.

Lemma splitlines_free (s : str) :
  Forall (Forall (fun c => is_linebreak c = false)) (splitlines s).
Proof.
  apply (splitlines_from_Forall (fun _ => True) (length s));
    [auto|lia|constructor].
Qed.

Lemma split_two_spaces_Forall (P : N -> Prop) (n : nat) (s : str) :
  (length s <= n)%nat -> Forall P s -> Forall (Forall P) (split_two_spaces s).
Proof.
  revert s. induction n as [|n IH]; intros s Hlen Hs.
  - destruct s; [|simpl in Hlen; lia]. repeat constructor.
  - destruct s as [|c s]; [repeat constructor|].
    simpl in Hlen. inversion Hs as [|? ? Hc Hs']; subst.
    assert (Hgen : Forall (Forall P)
                     match split_two_spaces s with
                     | [] => [[c]]
                     | p :: ps => (c :: p) :: ps
                     end).
    { pose proof (IH s ltac:(lia) Hs') as H.
      destruct (split_two_spaces s) as [|p ps].
      - repeat constructor. exact Hc.
      - inversion H; subst. constructor; [constructor; assumption|assumption]. }
    simpl. destruct c as [|p]; [exact Hgen|].
    repeat (destruct p as [p|p|]; try exact Hgen).
    destruct s as [|c' s']; [exact Hgen|].
    destruct c' as [|p']; [exact Hgen|].
    repeat (destruct p' as [p'|p'|]; try exact Hgen).
    constructor; [constructor|].
    inversion Hs'; subst. apply IH; [simpl in Hlen; lia|assumption].
Qed.

Lemma linebreak_free_nl_free (p : str) :
  Forall (fun c => is_linebreak c = false) p -> nl_free p.
Proof.
  unfold nl_free. induction 1 as [|c p Hc Hp IH]; [reflexivity|].
  simpl. destruct (N.eqb_spec c NL) as [->|]; [discriminate Hc|exact IH].
Qed.

(** The pieces that [clean_html_content] joins. *)
Lemma clean_pieces (text : str) :
  Forall (fun p => Forall (fun c => is_linebreak c = false) p /\ strip p = p)
    (flat_map (fun line => map strip (split_two_spaces line))
       (map strip (splitlines text))).
Proof.
  apply Forall_flat_map. apply Forall_map.
  pose proof (splitlines_free text) as H.
  eapply Forall_impl; [exact H|]. simpl. intros line Hline.
  apply Forall_map.
  pose proof (split_two_spaces_Forall _ (length (strip line)) (strip line)
                ltac:(lia) (strip_Forall _ _ Hline)) as Hp.
  eapply Forall_impl; [exact Hp|]. simpl. intros piece Hpiece.
  split; [apply strip_Forall; exact Hpiece|].
  destruct (strip_decompose piece) as (w1 & w2 & _ & _ & _ & Hh & Hl).
  apply strip_fixed; assumption.
Qed.

Lemma filter_truthy_Forall {A} (P : list A -> Prop) (l : list (list A)) :
  Forall P l -> Forall (fun p => P p /\ p <> []) (List.filter truthy l).
Proof.
  induction 1 as [|p l Hp Hl IH]; [constructor|].
  simpl. destruct p as [|c p]; simpl; [exact IH|].
  constructor; [split; [exact Hp|discriminate]|exact IH].
Qed.

Lemma join_nl_nonempty (l : list str) :
  Forall (fun p => p <> []) l -> l <> [] -> join_nl l <> [].
Proof.
  intros Hl Hne. destruct l as [|p l]; [congruence|].
  inversion Hl; subst. destruct l; simpl; [assumption|].
  destruct p; [congruence|discriminate].
Qed.

Lemma rev_join_nl (l : list str) :
  rev (join_nl l) = join_nl (rev (map (@rev N) l)).
Proof.
  induction l as [|p l IH]; [reflexivity|].
  destruct l as [|q l]; [reflexivity|].
  rewrite join_nl_cons by discriminate.
  rewrite rev_app_distr.
  change (rev (NL :: join_nl (q :: l))) with (rev (join_nl (q :: l)) ++ [NL]).
  rewrite IH, <- app_assoc.
  change (rev (map (@rev N) (p :: q :: l)))
    with (rev (map (@rev N) (q :: l)) ++ [rev p]).
  rewrite join_nl_app; [reflexivity| |discriminate].
  simpl. destruct (rev (map (@rev N) l)); discriminate.
Qed.

Lemma join_nl_head_char (l : list str) :
  Forall (fun p => exists c r, p = c :: r /\ isspace c = false) l ->
  l <> [] ->
  exists c r, join_nl l = c :: r /\ isspace c = false.
Proof.
  intros Hl Hne. destruct l as [|p l]; [congruence|].
  inversion Hl as [|? ? (c & r & -> & Hc) _]; subst.
  destruct l; simpl; eauto.
Qed.

(** Joining stripped, non-empty paragraphs gives a stripped text. *)
Lemma join_nl_stripped (l : list str) :
  Forall (fun p => p <> [] /\ strip p = p) l ->
  strip (join_nl l) = join_nl l.
Proof.
  intros Hl. destruct (decide (l = [])) as [->|Hne]; [reflexivity|].
  apply strip_fixed.
  - intros c r E.
    destruct (join_nl_head_char l) as (c' & r' & E' & Hc'); [|exact Hne|congruence].
    eapply Forall_impl; [exact Hl|]. simpl. intros p [Hp Hs].
    destruct p as [|a p]; [congruence|].
    exists a, p. split; [reflexivity|].
    destruct (strip_decompose (a :: p)) as (_ & _ & _ & _ & _ & Hh & _).
    rewrite Hs in Hh. exact (Hh a p eq_refl).
  - intros c r E. rewrite rev_join_nl in E.
    destruct (join_nl_head_char (rev (map (@rev N) l))) as (c' & r' & E' & Hc');
      [| |congruence].
    + apply Forall_rev, Forall_map.
      eapply Forall_impl; [exact Hl|]. simpl. intros p [Hp Hs].
      destruct (rev p) as [|a q] eqn:Er.
      { apply (f_equal (@rev N)) in Er. rewrite rev_involutive in Er.
        simpl in Er. congruence. }
      exists a, q. split; [reflexivity|].
      destruct (strip_decompose p) as (_ & _ & _ & _ & _ & _ & Hlast).
      rewrite Hs in Hlast. exact (Hlast a q Er).
    + intros E'. apply (f_equal (@rev (list N))) in E'.
      rewrite rev_involutive in E'. simpl in E'.
      destruct l; [congruence|discriminate].
Qed.

Lemma split_two_spaces_cons (c : N) (s : str) :
  split_two_spaces (c :: s)
  = if (c =? 32)%N && starts_with_space s
    then [] :: split_two_spaces (tl s)
    else match split_two_spaces s with
         | [] => [[c]]
         | p :: ps => (c :: p) :: ps
         end.
Proof.
  destruct c as [|p]; [reflexivity|].
  repeat (destruct p as [p|p|]; try reflexivity).
  destruct s as [|c' s']; [reflexivity|].
  destruct c' as [|p']; [reflexivity|].
  repeat (destruct p' as [p'|p'|]; try reflexivity).
Qed.

Lemma split_two_spaces_head (s p : str) (ps : list str) :
  starts_with_space s = false -> split_two_spaces s = p :: ps ->
  starts_with_space p = false.
Proof.
  destruct s as [|c s]; intros Hs E.
  - injection E as <- _. reflexivity.
  - rewrite split_two_spaces_cons in E. simpl in Hs. rewrite Hs in E.
    simpl in E. destruct (split_two_spaces s); injection E as <- _; exact Hs.
Qed.

Lemma split_two_spaces_single (n : nat) (s : str) :
  (length s <= n)%nat ->
  Forall (fun p => has_two_spaces p = false) (split_two_spaces s).
Proof.
  revert s. induction n as [|n IH]; intros s Hlen.
  - destruct s; [|simpl in Hlen; lia]. repeat constructor.
  - destruct s as [|c s]; [repeat constructor|].
    simpl in Hlen. rewrite split_two_spaces_cons.
    destruct ((c =? 32)%N && starts_with_space s) eqn:Ec.
    + constructor; [reflexivity|]. apply IH.
      destruct s; simpl in *; lia.
    + pose proof (IH s ltac:(lia)) as H.
      destruct (split_two_spaces s) as [|p ps] eqn:E.
      * constructor; [|constructor]. simpl.
        rewrite andb_false_r. reflexivity.
      * inversion H as [|? ? Hp Hps]; subst.
        constructor; [|exact Hps].
        simpl. rewrite Hp, orb_false_r.
        destruct (c =? 32)%N; [|reflexivity].
        simpl in Ec. simpl.
        exact (split_two_spaces_head s p ps Ec E).
Qed.

Lemma has_two_spaces_app (a b : str) :
  has_two_spaces (a ++ b) = false ->
  has_two_spaces a = false /\ has_two_spaces b = false.
Proof.
  induction a as [|c a IH]; intros H; [split; [reflexivity|exact H]|].
  simpl in H. apply orb_false_iff in H as [H1 H2].
  destruct (IH H2) as [Ha Hb]. split; [|exact Hb].
  simpl. rewrite Ha, orb_false_r.
  destruct (c =? 32)%N; [|reflexivity].
  simpl in *. destruct a; [reflexivity|exact H1].
Qed.

Lemma strip_single_spaces (s : str) :
  has_two_spaces s = false -> has_two_spaces (strip s) = false.
Proof.
  intros H. destruct (strip_decompose s) as (w1 & w2 & E & _).
  rewrite E in H. apply has_two_spaces_app in H as [_ H].
  apply has_two_spaces_app in H as [H _]. exact H.
Qed.

Lemma clean_pieces_single_spaces (text : str) :
  Forall (fun p => has_two_spaces p = false)
    (flat_map (fun line => map strip (split_two_spaces line))
       (map strip (splitlines text))).
Proof.
  apply Forall_flat_map, Forall_map, Forall_forall. intros line _. simpl.
  apply Forall_map.
  eapply Forall_impl; [apply (split_two_spaces_single (length (strip line))); lia|].
  simpl. intros p. apply strip_single_spaces.
Qed.

End CleanText.

Lemma clean_html_content_pieces (text : str) :
  exists ps,
    clean_html_content text = join_nl ps
    /\ Forall (fun p => (Forall (fun c => is_linebreak c = false) p
                         /\ strip p = p /\ has_two_spaces p = false)
                        /\ p <> []) ps.
Proof.
  unfold clean_html_content.
  set (pieces := flat_map _ _).
  exists (List.filter truthy pieces). split; [reflexivity|].
  apply filter_truthy_Forall.
  pose proof (clean_pieces text) as H1.
  pose proof (clean_pieces_single_spaces text) as H2.
  fold pieces in H1, H2. rewrite Forall_forall in H1, H2.
  apply Forall_forall. intros p Hp.
  destruct (H1 p Hp) as [Ha Hb]. auto.
Qed.

Lemma clean_html_content_stripped (text : str) :
  strip (clean_html_content text) = clean_html_content text.
Proof.
  destruct (clean_html_content_pieces text) as (ps & -> & Hall).
  apply join_nl_stripped.
  eapply Forall_impl; [exact Hall|]. simpl. tauto.
Qed.

Lemma clean_html_content_lines (text : str) :
  clean_html_content text <> [] ->
  Forall (fun p => p <> [] /\ strip p = p /\ has_two_spaces p = false)
    (split_nl (clean_html_content text)).
Proof.
  destruct (clean_html_content_pieces text) as (ps & -> & Hall).
  intros Hne. rewrite split_join_nl.
  - eapply Forall_impl; [exact Hall|]. simpl. tauto.
  - eapply Forall_impl; [exact Hall|]. simpl.
    intros p [[Hp _] _]. apply linebreak_free_nl_free. exact Hp.
  - intros E. rewrite E in Hne. apply Hne. reflexivity.
Qed.

(** X21: [clean_html_content] returns a text that neither begins nor ends
    with white space.  When it is not empty, each of its lines (the
    paragraphs that [split_content] sees) is non-empty, has no white space
    at either end and never holds two spaces in a row. *)
Theorem clean_html_content_paragraphs (text : str) :
  strip (clean_html_content text) = clean_html_content text
  /\ (clean_html_content text <> [] ->
      Forall (fun p => p <> [] /\ strip p = p /\ has_two_spaces p = false)
        (split_nl (clean_html_content text))).
Proof.
  split; [apply clean_html_content_stripped|apply clean_html_content_lines].
Qed.

Section ParseEpub.
Local Open Scope Z_scope.

Lemma split_content_join_nl (T : str) (S : Z) : join_nl (split_content T S) = T.
Proof.
  unfold split_content.
  change (join_nl (split_result
            (fold_left (split_step S) (split_nl T)
               {| chunks := []; current_chunk := []; current_size := 0 |})) = T).
  rewrite split_loop_join.
  - simpl. apply join_split_nl.
  - right. apply split_nl_nonempty.
Qed.

(** A text whose paragraphs are not empty is cut into chunks that are not
    empty. *)
Lemma split_content_nonempty_chunks (T : str) (S : Z) :
  Forall (fun p => p <> []) (split_nl T) ->
  Forall (fun c => c <> []) (split_content T S).
Proof.
  intros H. rewrite <- (split_content_concat T S) in H.
  apply Forall_forall. intros c Hc ->.
  rewrite Forall_forall in H. apply (H []); [|reflexivity].
  apply list_elem_of_In, in_concat. exists [[]]. split; [|left; reflexivity].
  apply in_map_iff. exists []. split; [reflexivity|].
  apply list_elem_of_In. exact Hc.
Qed.

Lemma length_number_chunks (l : list str) (i ci : Z) :
  length (number_chunks l i ci) = length l.
Proof.
  revert i ci. induction l as [|c l IH]; intros i ci; [reflexivity|].
  simpl. rewrite IH. reflexivity.
Qed.

Lemma number_chunks_content (l : list str) (i ci : Z) :
  map EpubParse.content (number_chunks l i ci) = l.
Proof.
  revert i ci. induction l as [|c l IH]; intros i ci; [reflexivity|].
  simpl. rewrite IH. reflexivity.
Qed.

Lemma number_chunks_lookup (l : list str) (i ci : Z) (k : nat)
    (cd : chunk_data) :
  number_chunks l i ci !! k = Some cd ->
  EpubParse.chunk_index cd = ci + Z.of_nat k
  /\ chapter_chunk_index cd = i + Z.of_nat k.
Proof.
  revert i ci k. induction l as [|c l IH]; intros i ci k H; [discriminate|].
  destruct k as [|k].
  - injection H as <-. simpl. lia.
  - cbn [number_chunks lookup list_lookup] in H.
    destruct (IH _ _ _ H) as [H1 H2]. lia.
Qed.

Lemma save_chunks_spec (book_dir : str) (l : list str) :
  forall i ci saved fs,
    save_chunks book_dir l i ci saved fs
    = (ci + Z.of_nat (length l),
       saved ++ number_chunks l i ci,
       write_chunks book_dir (number_chunks l i ci) fs).
Proof.
  induction l as [|c l IH]; intros i ci saved fs.
  - cbn [save_chunks number_chunks length write_chunks fold_left].
    rewrite app_nil_r, Z.add_0_r. reflexivity.
  - cbn [save_chunks]. rewrite IH.
    cbn [number_chunks length]. rewrite <- app_assoc, Nat2Z.inj_succ.
    replace (ci + 1 + Z.of_nat (length l)) with (ci + Z.succ (Z.of_nat (length l)))
      by lia.
    reflexivity.
Qed.

Lemma write_chunks_app (book_dir : str) (a b : list chunk_data)
    (fs : gmap str json_file) :
  write_chunks book_dir (a ++ b) fs
  = write_chunks book_dir b (write_chunks book_dir a fs).
Proof. unfold write_chunks. apply fold_left_app. Qed.

Lemma fold_parse_item (book_dir : str) (items : list item) :
  forall ci chs fs,
    fold_left (parse_item book_dir) items (ci, chs, fs)
    = (ci + Z.of_nat (length (all_chunks (chapters_from items ci))),
       chs ++ chapters_from items ci,
       write_chunks book_dir (all_chunks (chapters_from items ci)) fs).
Proof.
  induction items as [|it items IH]; intros ci chs fs.
  - cbn [fold_left chapters_from all_chunks map concat length write_chunks].
    rewrite app_nil_r, Z.add_0_r. reflexivity.
  - cbn [fold_left chapters_from]. unfold parse_item at 2, kept.
    rewrite clean_html_content_stripped.
    destruct (is_chapter it); cbn [negb andb]; [|apply IH].
    destruct (truthy (clean_html_content (get_text it))); cbn [negb]; [|apply IH].
    rewrite save_chunks_spec, IH. cbn [app].
    unfold all_chunks. cbn [map concat chapter_chunks].
    rewrite length_app, length_number_chunks, write_chunks_app, <- app_assoc.
    rewrite Nat2Z.inj_add, Z.add_assoc. reflexivity.
Qed.

Lemma chapters_from_index (items : list item) :
  forall ci k cd,
    all_chunks (chapters_from items ci) !! k = Some cd ->
    EpubParse.chunk_index cd = ci + Z.of_nat k.
Proof.
  induction items as [|it items IH]; intros ci k cd H; [discriminate|].
  cbn [chapters_from] in H. destruct (kept it); [|exact (IH _ _ _ H)].
  unfold all_chunks in H. cbn [map concat chapter_chunks] in H.
  apply lookup_app_Some in H as [H|[Hlen H]].
  - apply number_chunks_lookup in H. tauto.
  - rewrite length_number_chunks in Hlen, H.
    apply IH in H. rewrite H. lia.
Qed.

Lemma chapters_from_chapter_index (items : list item) :
  forall ci,
    Forall (fun ch => forall j cd,
              chapter_chunks ch !! j = Some cd ->
              chapter_chunk_index cd = Z.of_nat j + 1)
      (chapters_from items ci).
Proof.
  induction items as [|it items IH]; intros ci; [constructor|].
  cbn [chapters_from]. destruct (kept it); [|apply IH].
  constructor; [|apply IH].
  intros j cd H. cbn [chapter_chunks] in H.
  apply number_chunks_lookup in H. lia.
Qed.

Lemma chapters_from_texts (items : list item) :
  forall ci, map chapter_text (chapters_from items ci) = chapter_texts items.
Proof.
  unfold chapter_texts.
  induction items as [|it items IH]; intros ci; [reflexivity|].
  cbn [chapters_from List.filter]. destruct (kept it); [|apply IH].
  cbn [map]. rewrite IH. f_equal.
  unfold chapter_text. cbn [title chapter_chunks].
  rewrite number_chunks_content, split_content_join_nl. reflexivity.
Qed.

Lemma chapters_from_nonempty (items : list item) :
  forall ci,
    Forall (fun cd => EpubParse.content cd <> [])
      (all_chunks (chapters_from items ci)).
Proof.
  induction items as [|it items IH]; intros ci; [constructor|].
  cbn [chapters_from]. destruct (kept it) eqn:Ek; [|apply IH].
  unfold all_chunks. cbn [map concat chapter_chunks].
  apply Forall_app. split; [|apply IH].
  apply andb_true_iff in Ek as [_ Ek].
  assert (Hne : clean_html_content (get_text it) <> []).
  { intros E. rewrite E in Ek. discriminate. }
  assert (H : Forall (fun c => c <> [])
                 (split_content (clean_html_content (get_text it)) 2000)).
  { apply split_content_nonempty_chunks.
    eapply Forall_impl; [exact (clean_html_content_lines _ Hne)|].
    simpl. tauto. }
  rewrite Forall_forall in H. apply Forall_forall. intros cd Hcd.
  apply H.
  rewrite <- (number_chunks_content
                (split_content (clean_html_content (get_text it)) 2000) 1 ci).
  apply list_elem_of_fmap. exists cd. split; [reflexivity|exact Hcd].
Qed.

Lemma parse_epub_spec (items : list item) (book_name output_dir : str)
    (fs : gmap str json_file) :
  let book_dir := path_join output_dir book_name in
  let result := {| EpubParse.book_name := book_name;
                   chapters := chapters_from items 1 |} in
  parse_epub items book_name output_dir fs
  = (result,
     <[path_join book_dir (py "book_info.json") := InfoFile result]>
       (write_chunks book_dir (all_chunks (chapters_from items 1)) fs)).
Proof.
  intros book_dir result. unfold parse_epub.
  fold book_dir. rewrite fold_parse_item. reflexivity.
Qed.

Lemma chunk_file_basename (book_dir : str) (k : Z) :
  chunk_file book_dir k = dir_prefix book_dir ++ chunk_basename k.
Proof.
  unfold chunk_file, chunk_basename.
  assert (E : py "chunk_" = 99%N :: py "hunk_") by (vm_compute; reflexivity).
  rewrite E. cbn [app]. apply path_join_relative. discriminate.
Qed.

Lemma chunk_file_inj (book_dir : str) (a b : Z) :
  0 < a -> 0 < b -> chunk_file book_dir a = chunk_file book_dir b -> a = b.
Proof.
  intros Ha Hb. rewrite !chunk_file_basename. unfold chunk_basename.
  intros H. apply app_inv_head in H. apply app_inv_head in H.
  apply app_inv_tail in H.
  destruct a as [|p|p]; [lia| |lia]. destruct b as [|q|q]; [lia| |lia].
  apply zfill_pos_inj in H. congruence.
Qed.

Lemma info_file_basename (book_dir : str) :
  path_join book_dir (py "book_info.json")
  = dir_prefix book_dir ++ py "book_info.json".
Proof.
  assert (E : py "book_info.json" = 98%N :: py "ook_info.json")
    by (vm_compute; reflexivity).
  rewrite E. apply path_join_relative. discriminate.
Qed.

Lemma chunk_file_ne_info (book_dir : str) (k : Z) :
  chunk_file book_dir k <> path_join book_dir (py "book_info.json").
Proof.
  rewrite chunk_file_basename, info_file_basename. unfold chunk_basename.
  intros H. apply app_inv_head in H.
  assert (E1 : py "chunk_" = 99%N :: py "hunk_") by (vm_compute; reflexivity).
  assert (E2 : py "book_info.json" = 98%N :: py "ook_info.json")
    by (vm_compute; reflexivity).
  rewrite E1, E2 in H. discriminate H.
Qed.

Lemma write_chunks_lookup (book_dir : str) (ci : Z) (cds : list chunk_data)
    (fs : gmap str json_file) :
  0 < ci ->
  (forall k cd, cds !! k = Some cd ->
                EpubParse.chunk_index cd = ci + Z.of_nat k) ->
  forall k cd,
    cds !! k = Some cd ->
    write_chunks book_dir cds fs !! chunk_file book_dir (ci + Z.of_nat k)
    = Some (ChunkFile cd).
Proof.
  intros Hci. induction cds as [|x l IH] using rev_ind; intros Hidx k cd Hk;
    [discriminate|].
  rewrite write_chunks_app. cbn [write_chunks fold_left].
  assert (Hx : EpubParse.chunk_index x = ci + Z.of_nat (length l)).
  { apply Hidx. rewrite lookup_app_r by lia.
    rewrite Nat.sub_diag. reflexivity. }
  rewrite Hx.
  apply lookup_app_Some in Hk as [Hk|[Hlen Hk]].
  - pose proof (lookup_lt_Some _ _ _ Hk) as Hlt.
    rewrite lookup_insert_ne.
    + apply IH; [|exact Hk]. intros k' cd' H'. apply Hidx.
      apply lookup_app_l_Some. exact H'.
    + intros E. apply chunk_file_inj in E; lia.
  - destruct (k - length l)%nat as [|n] eqn:En; [|destruct n; discriminate].
    injection Hk as <-.
    replace k with (length l) by lia. apply lookup_insert_eq.
Qed.

Lemma write_chunks_other (book_dir : str) (cds : list chunk_data)
    (path : str) :
  forall fs,
    (forall cd, cd ∈ cds ->
                path <> chunk_file book_dir (EpubParse.chunk_index cd)) ->
    write_chunks book_dir cds fs !! path = fs !! path.
Proof.
  induction cds as [|cd cds IH]; intros fs H; [reflexivity|].
  cbn [write_chunks fold_left].
  change (fold_left _ cds ?m) with (write_chunks book_dir cds m).
  rewrite IH.
  - apply lookup_insert_ne. intros E. apply (H cd); [left|symmetry; exact E].
  - intros cd' Hin. apply H. right. exact Hin.
Qed.

End ParseEpub.

(** X22: the chapters that [parse_epub] returns are the chapter items of the
    book whose cleaned text is not empty, in the order of the book and under
    the name of the item; the chunks of a chapter, joined by newlines, are
    the cleaned text of the chapter, and no chunk is empty.  Items that are
    no chapter and chapters without text leave no trace. *)
Theorem parse_epub_chapters (items : list item) (book_name output_dir : str)
    (fs : gmap str json_file) :
  let result := fst (parse_epub items book_name output_dir fs) in
  EpubParse.book_name result = book_name
  /\ map chapter_text (chapters result) = chapter_texts items
  /\ Forall (fun cd => EpubParse.content cd <> [])
       (all_chunks (chapters result)).
Proof.
  intros result. unfold result. rewrite parse_epub_spec.
  cbn [fst EpubParse.book_name chapters].
  split; [reflexivity|]. split.
  - apply chapters_from_texts.
  - apply chapters_from_nonempty.
Qed.

(** X23: [parse_epub] numbers the chunks of the book 1, 2, 3, ... across the
    chapters, without a gap, and the chunks of each chapter 1, 2, 3, ...
    from the start of the chapter. *)
Theorem parse_epub_numbering (items : list item) (book_name output_dir : str)
    (fs : gmap str json_file) :
  let result := fst (parse_epub items book_name output_dir fs) in
  (forall k cd,
     all_chunks (chapters result) !! k = Some cd ->
     EpubParse.chunk_index cd = (Z.of_nat k + 1)%Z)
  /\ Forall (fun ch => forall j cd,
               chapter_chunks ch !! j = Some cd ->
               chapter_chunk_index cd = (Z.of_nat j + 1)%Z)
       (chapters result).
Proof.
  intros result. unfold result. rewrite parse_epub_spec.
  cbn [fst chapters]. split.
  - intros k cd H. apply chapters_from_index in H. lia.
  - apply chapters_from_chapter_index.
Qed.

(** X24: after [parse_epub] the directory of the book holds, for the chunk in
    place [k] of the book (from 0), the file [chunk_{k+1:04d}.json] with that
    chunk, and the file [book_info.json] with the result; no other file of
    the file system is touched.  Files of an earlier run with a higher chunk
    number stay in the directory. *)
Theorem parse_epub_files (items : list item) (book_name output_dir : str)
    (fs : gmap str json_file) :
  let book_dir := path_join output_dir book_name in
  let result := fst (parse_epub items book_name output_dir fs) in
  let fs' := snd (parse_epub items book_name output_dir fs) in
  (forall k cd,
     all_chunks (chapters result) !! k = Some cd ->
     fs' !! chunk_file book_dir (Z.of_nat k + 1)%Z = Some (ChunkFile cd))
  /\ fs' !! path_join book_dir (py "book_info.json") = Some (InfoFile result)
  /\ (forall path,
        path <> path_join book_dir (py "book_info.json") ->
        (forall k, (k < length (all_chunks (chapters result)))%nat ->
                   path <> chunk_file book_dir (Z.of_nat k + 1)%Z) ->
        fs' !! path = fs !! path).
Proof.
  intros book_dir result fs'. unfold result, fs'. rewrite parse_epub_spec.
  cbn [fst snd chapters]. fold book_dir.
  set (cds := all_chunks (chapters_from items 1)).
  assert (Hidx : forall k cd, cds !! k = Some cd ->
                 EpubParse.chunk_index cd = (1 + Z.of_nat k)%Z).
  { intros k cd H. exact (chapters_from_index _ _ _ _ H). }
  split; [|split].
  - intros k cd H. rewrite lookup_insert_ne by (symmetry; apply chunk_file_ne_info).
    rewrite Z.add_comm. apply write_chunks_lookup; [lia|exact Hidx|exact H].
  - apply lookup_insert_eq.
  - intros path Hinfo Hchunk.
    rewrite lookup_insert_ne by (symmetry; exact Hinfo).
    apply write_chunks_other. intros cd Hin.
    apply list_elem_of_lookup in Hin as [k Hk].
    rewrite (Hidx k cd Hk), Z.add_comm. apply Hchunk.
    exact (lookup_lt_Some _ _ _ Hk).
Qed.

(** ** process_pages on the directory of an EPUB book *)

Section EpubDirectory.
Local Open Scope Z_scope.

Variable isdigit : N -> bool.
Variable to_int : list N -> option Z.

Hypothesis isdigit_ascii :
  forall c, (c < 128)%N -> isdigit c = ascii_isdigit c.
Hypothesis to_int_ascii :
  forall d, d <> Decimal.Nil -> to_int (digits d) = Some (Z.of_uint d).
Hypothesis to_int_empty : to_int [] = None.

Lemma get_page_number_chunk (k : nat) :
  get_page_number isdigit to_int (chunk_basename (Z.of_nat k + 1))
  = Z.of_nat k + 1.
Proof.
  unfold chunk_basename.
  replace (Z.of_nat k + 1) with (Zpos (Pos.of_succ_nat k)) by lia.
  cbn [str_of_int]. rewrite zfill_digits.
  set (d := Nat.iter _ Decimal.D0 (Pos.to_uint (Pos.of_succ_nat k))).
  assert (E1 : py "chunk_" = py "chunk" ++ [95%N]) by (vm_compute; reflexivity).
  assert (E2 : py ".json" = 46%N :: py "json") by (vm_compute; reflexivity).
  rewrite E1, E2, <- app_assoc. cbn [app].
  rewrite (get_page_number_digits isdigit to_int isdigit_ascii to_int_ascii).
  - unfold Z.of_uint, d. rewrite of_uint_zeros, DecimalPos.Unsigned.of_to.
    reflexivity.
  - vm_compute. repeat constructor; discriminate.
  - vm_compute. repeat constructor; discriminate.
  - unfold d. intros E. apply (f_equal Pos.of_uint) in E.
    rewrite of_uint_zeros, DecimalPos.Unsigned.of_to in E. discriminate.
Qed.

Lemma get_page_number_info :
  get_page_number isdigit to_int (py "book_info.json") = 0.
Proof.
  unfold get_page_number.
  assert (E1 : split_on 95%N (py "book_info.json") !! 1%nat
               = Some (py "info.json")) by (vm_compute; reflexivity).
  assert (E2 : first_item (split_on 46%N (py "info.json")) = py "info")
    by (vm_compute; reflexivity).
  assert (E3 : List.filter isdigit (py "info") = []).
  { assert (E : py "info" = [105; 110; 102; 111]%N) by (vm_compute; reflexivity).
    rewrite E. cbn [List.filter].
    rewrite !isdigit_ascii by (vm_compute; reflexivity). reflexivity. }
  rewrite E1, E2, E3, to_int_empty. reflexivity.
Qed.

(** X25: on the directory that [parse_epub] leaves for a book of [K] chunks,
    listed in any order, [process_pages] counts [K + 1] page files, since
    [book_info.json] is one of them and gets the page number 0.  Its
    dictionary maps each number from 1 to [K] to the file of that chunk and
    has no entry for [K + 1]: with the default range, which ends at the
    number of page files, every chunk is processed and page [K + 1] is
    reported missing. *)
Theorem epub_directory_pages (K : nat) (listing : list str) :
  listing ≡ₚ py "book_info.json"
             :: map (fun k => chunk_basename (Z.of_nat k + 1)) (seq 0 K) ->
  let page_files := page_files_of isdigit to_int listing in
  let page_file_map := page_file_map_of isdigit to_int page_files in
  length page_files = S K
  /\ page_file_map !! 0 = Some (py "book_info.json")
  /\ (forall k, (k < K)%nat ->
        page_file_map !! (Z.of_nat k + 1)
        = Some (chunk_basename (Z.of_nat k + 1)))
  /\ page_file_map !! (Z.of_nat K + 1) = None.
Proof.
  intros Hperm page_files page_file_map.
  set (key := get_page_number isdigit to_int) in *.
  set (names := py "book_info.json"
                :: map (fun k => chunk_basename (Z.of_nat k + 1)) (seq 0 K))
    in *.
  assert (Hkey : forall k, key (chunk_basename (Z.of_nat k + 1)) = Z.of_nat k + 1).
  { intros k. apply get_page_number_chunk. }
  assert (Hinfo : key (py "book_info.json") = 0) by apply get_page_number_info.
  assert (Hfilter : List.filter (fun f => endswith f (py ".json")) listing
                    = listing).
  { apply forallb_filter_id. apply forallb_forall. intros f Hf.
    apply list_elem_of_In in Hf. rewrite Hperm in Hf.
    apply elem_of_cons in Hf as [->|Hf]; [vm_compute; reflexivity|].
    apply list_elem_of_fmap in Hf as (k & -> & _).
    unfold chunk_basename. rewrite app_assoc. apply endswith_app. }
  assert (Hfiles : page_files ≡ₚ names).
  { unfold page_files, page_files_of. rewrite Hfilter, sorted_perm.
    exact Hperm. }
  assert (Hkeys : map key page_files
                  ≡ₚ 0 :: map (fun k => Z.of_nat k + 1) (seq 0 K)).
  { rewrite Hfiles. unfold names. cbn [map]. rewrite Hinfo, map_map.
    apply eq_subrelation; [typeclasses eauto|].
    f_equal. apply map_ext. exact Hkey. }
  assert (Hnd : NoDup (map key page_files)).
  { rewrite Hkeys. apply NoDup_cons. split.
    - intros Hin. apply list_elem_of_fmap in Hin as (k & E & _). lia.
    - apply NoDup_fmap_2; [|apply NoDup_seq]. intros a b H. lia. }
  split; [rewrite Hfiles; unfold names; cbn [length];
          rewrite length_map, length_seq; reflexivity|].
  split; [|split].
  - unfold page_file_map, page_file_map_of. fold key.
    apply (fold_insert_lookup key); [exact Hnd|]. left.
    split; [|exact Hinfo]. rewrite Hfiles. left.
  - intros k Hk. unfold page_file_map, page_file_map_of. fold key.
    apply (fold_insert_lookup key); [exact Hnd|]. left.
    split; [|apply Hkey].
    rewrite Hfiles. right. apply list_elem_of_fmap. exists k.
    split; [reflexivity|]. apply elem_of_seq. lia.
  - unfold page_file_map, page_file_map_of. fold key.
    destruct (fold_left _ page_files ∅ !! (Z.of_nat K + 1)) as [v|] eqn:E;
      [|reflexivity].
    exfalso. apply (fold_insert_lookup key) in E; [|exact Hnd].
    destruct E as [[Hin Hv]|[_ Hm]]; [|rewrite lookup_empty in Hm; discriminate].
    rewrite Hfiles in Hin. apply elem_of_cons in Hin as [->|Hin]; [lia|].
    apply list_elem_of_fmap in Hin as (k & -> & Hk).
    apply elem_of_seq in Hk. rewrite Hkey in Hv. lia.
Qed.

End EpubDirectory.

(** The directory of a book of two chunks, listed out of order. *)
Lemma epub_directory_pages_witness :
  length (page_files_of ascii_isdigit ascii_int
            [chunk_basename 2; py "book_info.json"; chunk_basename 1])
  = 3%nat.
Proof.
  refine (proj1 (epub_directory_pages ascii_isdigit ascii_int
                   (fun c _ => eq_refl) ascii_int_digits eq_refl 2
                   [chunk_basename 2; py "book_info.json"; chunk_basename 1]
                   _)).
  cbn [seq map Z.of_nat Z.add Pos.of_succ_nat Pos.succ Pos.add].
  rewrite (Permutation_swap (py "book_info.json") (chunk_basename 2)).
  apply perm_skip. apply Permutation_swap.
Defined.

(** A book of three items: a page that is no chapter, a chapter, and a
    chapter of white space only. *)
Example parse_epub_example :
  chapters
    (fst (parse_epub
            [ {| is_chapter := false; get_name := py "nav.xhtml";
                 get_text := py "contents" |};
              {| is_chapter := true; get_name := py "c1.xhtml";
                 get_text := py " Hello  world " ++ [NL; NL] ++ py " bye " |};
              {| is_chapter := true; get_name := py "c2.xhtml";
                 get_text := py "  " ++ [NL] ++ py " " |} ]
            (py "book") (py "sep_pages") ∅))
  = [ {| title := py "c1.xhtml";
         chapter_chunks :=
           [ {| EpubParse.content := py "Hello" ++ NL :: py "world" ++ NL :: py "bye";
                EpubParse.chunk_index := 1;
                chapter_chunk_index := 1 |} ] |} ].
Proof. vm_compute. reflexivity. Qed.
